(** * Shader playground: the render host and the shader editor panel

    A shallow embedding of [Renderer] (the render host), of the [App]
    component of the editor panel in its scene-graph variants, and of the
    pointer handlers of the feedback-buffer variant, together with the parts
    of the browser, of WebGL and of three.js that this code drives.

    Numbers. The zoom, the wheel deltas and every number of the
    feedback-buffer variant are IEEE 754 binary64 values ([float]), computed
    with the rounding of JavaScript: these are the numbers the code
    multiplies by [0.001], or divides and then accumulates. Times, window
    sizes and pointer coordinates are exact rationals ([Q], compared with
    [==]); for them rounding is not modelled, and a division by zero, which
    gives [Infinity] or [NaN] in JavaScript, gives [0]. Sizes and pointer
    coordinates are whole numbers of pixels in a browser, and sums and
    differences of such doubles are exact. The literals [0.0] and [1.0] of
    the source are written [0] and [1]. *)

From Stdlib Require Import QArith Lia Floats.
From stdpp Require Import base option list gmap strings.

Set Warnings "-inexact-float".

Local Open Scope string_scope.

(** ** Source texts *)

Module Sources.

(** [Renderer.verifyShaderProgram]: the text put in front of the vertex
    source. *)
Definition vertexPreamble : string := "#version 300 es
    precision mediump sampler2DArray;
    #define attribute in
    #define varying out
    #define texture2D texture
    precision highp float;
    precision highp int;
    #define HIGH_PRECISION
    #define SHADER_NAME ShaderMaterial
    #define USE_LOGDEPTHBUF
    #define USE_LOGDEPTHBUF_EXT
    uniform mat4 modelMatrix;
    uniform mat4 modelViewMatrix;
    uniform mat4 projectionMatrix;
    uniform mat4 viewMatrix;
    uniform mat3 normalMatrix;
    uniform vec3 cameraPosition;
    uniform bool isOrthographic;
    #ifdef USE_INSTANCING
        attribute mat4 instanceMatrix;
    #endif
    #ifdef USE_INSTANCING_COLOR
        attribute vec3 instanceColor;
    #endif
    attribute vec3 position;
    attribute vec3 normal;
    attribute vec2 uv;
    #ifdef USE_UV1
        attribute vec2 uv1;
    #endif
    #ifdef USE_UV2
        attribute vec2 uv2;
    #endif
    #ifdef USE_UV3
        attribute vec2 uv3;
    #endif
    #ifdef USE_TANGENT
        attribute vec4 tangent;
    #endif
    #if defined( USE_COLOR_ALPHA )
        attribute vec4 color;
    #elif defined( USE_COLOR )
        attribute vec3 color;
    #endif
    #if ( defined( USE_MORPHTARGETS ) && ! defined( MORPHTARGETS_TEXTURE ) )
        attribute vec3 morphTarget0;
        attribute vec3 morphTarget1;
        attribute vec3 morphTarget2;
        attribute vec3 morphTarget3;
        #ifdef USE_MORPHNORMALS
            attribute vec3 morphNormal0;
            attribute vec3 morphNormal1;
            attribute vec3 morphNormal2;
            attribute vec3 morphNormal3;
        #else
            attribute vec3 morphTarget4;
            attribute vec3 morphTarget5;
            attribute vec3 morphTarget6;
            attribute vec3 morphTarget7;
        #endif
    #endif
    #ifdef USE_SKINNING
        attribute vec4 skinIndex;
        attribute vec4 skinWeight;
    #endif
    #line 1
    ".

(** [Renderer.verifyShaderProgram]: the text put in front of the fragment
    source. *)
Definition fragmentPreamble : string := "#version 300 es
    #define varying in
    layout(location = 0) out highp vec4 pc_fragColor;
    #define gl_FragColor pc_fragColor
    #define gl_FragDepthEXT gl_FragDepth
    #define texture2D texture
    #define textureCube texture
    #define texture2DProj textureProj
    #define texture2DLodEXT textureLod
    #define texture2DProjLodEXT textureProjLod
    #define textureCubeLodEXT textureLod
    #define texture2DGradEXT textureGrad
    #define texture2DProjGradEXT textureProjGrad
    #define textureCubeGradEXT textureGrad
    precision highp float;
    precision highp int;
    #define HIGH_PRECISION
    #define SHADER_NAME ShaderMaterial
    #define LEGACY_LIGHTS
    #define USE_LOGDEPTHBUF
    #define USE_LOGDEPTHBUF_EXT
    uniform mat4 viewMatrix;
    uniform vec3 cameraPosition;
    uniform bool isOrthographic;
    #define OPAQUE
    vec4 LinearToLinear( in vec4 value ) {
        return value;
    }
    vec4 LinearTosRGB( in vec4 value ) {
         return vec4( mix( pow( value.rgb, vec3( 0.41666 ) ) * 1.055 - vec3( 0.055 ), value.rgb * 12.92, vec3( lessThanEqual( value.rgb, vec3( 0.0031308 ) ) ) ), value.a );
    }
    vec4 linearToOutputTexel( vec4 value ) { return LinearTosRGB( value ); }
    #line 1
    ".

(** [App]: the fixed vertex program (the same in both scene-graph variants). *)
Definition vertexShader : string := "
    varying vec2 iuv;

    void main() {
        iuv = uv;
        gl_Position = vec4(position, 1.0);
    }
  ".

(** [App] of src/components/App.tsx: the default fragment program. *)
Definition initFragmentShader_quadX : string := "varying vec2 iuv;
uniform float time;
uniform vec2 resolution;
uniform vec2 mouse;

void main() {
  vec4 C = vec4(iuv.x, iuv.y, sin(time), 1.0);
  gl_FragColor = C;
}
  ".

(** [App] of the variant that precompiles: the default fragment program. *)
Definition initFragmentShader_quad : string := "varying vec2 iuv;
uniform float time;
uniform vec2 resolution;

void main() {
    vec4 C = vec4(iuv.x, iuv.y, sin(time), 1.0);
    if(iuv.x < 0.1){
      C = vec4(0.0, 0.0, 1.0, 1.0);
    }
    if(iuv.y < 0.1){
      C = vec4(0.0, 0.0, 1.0, 1.0);
    }
    if(iuv.x > 0.9){
      C = vec4(0.0, 0.0, 1.0, 1.0);
    }
    if(iuv.y > 0.9){
      C = vec4(0.0, 0.0, 1.0, 1.0);
    }
    gl_FragColor = C;
}
  ".

End Sources.

(** ** three.js: the classes the program uses *)

Module THREE.

Record Vector2 := mkVector2 { x : Q; y : Q }.

(** [Clock], built with its default [autoStart = true]: it starts running at
    the first [getDelta] (hence at the first [getElapsedTime]), not when it
    is built. [now] is [performance.now()], in milliseconds. *)
Record Clock := mkClock {
  autoStart : bool;
  startTime : Q;
  oldTime : Q;
  elapsedTime : Q;
  running : bool }.

Definition Clock_new : Clock := mkClock true 0 0 0 false.

Definition Clock_start (now : Q) (c : Clock) : Clock :=
  mkClock (autoStart c) now now 0 true.

Definition Clock_getDelta (now : Q) (c : Clock) : Q * Clock :=
  if autoStart c && negb (running c) then (0%Q, Clock_start now c)
  else if running c then
    let diff := ((now - oldTime c) / 1000)%Q in
    (diff, mkClock (autoStart c) (startTime c) now (elapsedTime c + diff)%Q true)
  else (0%Q, c).

Definition Clock_getElapsedTime (now : Q) (c : Clock) : Q * Clock :=
  let c' := snd (Clock_getDelta now c) in (elapsedTime c', c').

(** The uniforms object of the quad's [ShaderMaterial]. *)
Record Uniforms := mkUniforms {
  time : Q;
  resolution : Vector2;
  mouse : Vector2;
  drag : Vector2;
  zoom : float }.

Record ShaderMaterial := mkShaderMaterial {
  uniforms : Uniforms;
  vertexShader : string;
  fragmentShader : string;
  depthWrite : bool;
  depthTest : bool }.

(** [Mesh.material] is one material or an array of them. Geometries and
    materials are referred to by their identity. *)
Inductive MeshMaterial :=
| SingleMaterial (m : nat)
| MaterialArray (ms : list nat).

Inductive Kind :=
| Mesh (geometry : nat) (material : MeshMaterial)
| PlainObject.

(** An [Object3D] held by a scene. The program only ever adds leaf meshes,
    so an object carries no children of its own. [userData_material] is
    [userData.material]. *)
Record Object3D := mkObject3D {
  id : nat;
  name : string;
  kind : Kind;
  userData_material : option nat }.

Record OrthographicCamera := mkOrthographicCamera {
  camera_id : nat;
  left : Q; right : Q; top : Q; bottom : Q; near : Q; far : Q }.

(** What [getObjectByName] can return when called on a scene: the search
    starts with the object it is called on. *)
Inductive ObjectRef :=
| This
| Child (o : Object3D).

Definition getObjectByName (self_name : string) (children : list Object3D)
    (n : string) : option ObjectRef :=
  if String.eqb self_name n then Some This
  else option_map Child (find (fun o => String.eqb (name o) n) children).

(** [children.indexOf(object)] followed by [splice(index, 1)]. *)
Fixpoint splice_object (i : nat) (children : list Object3D) : list Object3D :=
  match children with
  | [] => []
  | o :: rest => if Nat.eqb (id o) i then rest else o :: splice_object i rest
  end.

Definition is_child (i : nat) (children : list Object3D) : bool :=
  existsb (fun o => Nat.eqb (id o) i) children.

(** The materials [switchScene] disposes for one mesh. *)
Definition materials_of (m : MeshMaterial) : list nat :=
  match m with
  | SingleMaterial m => [m]
  | MaterialArray ms => ms
  end.

Definition is_mesh (o : Object3D) : bool :=
  match kind o with Mesh _ _ => true | PlainObject => false end.

End THREE.

(** What the program does to the GPU-side resources and to the scene graph,
    in the order it does it. *)
Inductive Effect :=
| GeometryDispose (g : nat)
| MaterialDispose (m : nat)
| RenderListsDispose
| SceneAdd (o : nat)
| SceneRemove (o : nat)
| SetSize (w h : Q)
| Render (scene : string) (objects : list nat)
| Precompile.

(** ** WebGL: shader and program objects *)

Module GL.

Inductive ShaderType := VERTEX_SHADER | FRAGMENT_SHADER.

(** The graphics driver: whether a source compiles, whether compiled shaders
    link, and the info logs it reports ([null] is [None]). *)
Record Driver := mkDriver {
  compile_status : ShaderType -> string -> bool;
  shader_info_log : ShaderType -> string -> option string;
  link_status : list (ShaderType * string) -> bool;
  program_info_log : list (ShaderType * string) -> option string }.

Record Shader := mkShader {
  sh_type : ShaderType;
  sh_source : string;
  COMPILE_STATUS : bool;
  sh_infoLog : option string;
  sh_attached : nat;
  sh_deleteFlag : bool }.

Record Program := mkProgram {
  pr_shaders : list nat;
  LINK_STATUS : bool;
  pr_infoLog : option string }.

(** The live objects of a context. A shader deleted while attached is only
    flagged, and goes when the last program holding it is deleted. *)
Record Context := mkContext {
  shaders : gmap nat Shader;
  programs : gmap nat Program;
  next_name : nat }.

Definition empty_context : Context := mkContext ∅ ∅ 0.

Section Calls.
Variable drv : Driver.

Definition createShader (ty : ShaderType) (c : Context) : nat * Context :=
  let n := next_name c in
  (n, mkContext (<[n := mkShader ty "" false None 0 false]> (shaders c))
                (programs c) (S n)).

Definition shaderSource (s : nat) (src : string) (c : Context) : Context :=
  mkContext
    (alter (fun sh => mkShader (sh_type sh) src (COMPILE_STATUS sh)
                        (sh_infoLog sh) (sh_attached sh) (sh_deleteFlag sh))
           s (shaders c))
    (programs c) (next_name c).

Definition compileShader (s : nat) (c : Context) : Context :=
  mkContext
    (alter (fun sh => mkShader (sh_type sh) (sh_source sh)
                        (compile_status drv (sh_type sh) (sh_source sh))
                        (shader_info_log drv (sh_type sh) (sh_source sh))
                        (sh_attached sh) (sh_deleteFlag sh))
           s (shaders c))
    (programs c) (next_name c).

Definition getShaderParameter_COMPILE_STATUS (s : nat) (c : Context) : bool :=
  from_option COMPILE_STATUS false (shaders c !! s).

Definition getShaderInfoLog (s : nat) (c : Context) : option string :=
  match shaders c !! s with Some sh => sh_infoLog sh | None => None end.

Definition createProgram (c : Context) : nat * Context :=
  let n := next_name c in
  (n, mkContext (shaders c) (<[n := mkProgram [] false None]> (programs c))
                (S n)).

Definition attachShader (p s : nat) (c : Context) : Context :=
  mkContext
    (alter (fun sh => mkShader (sh_type sh) (sh_source sh) (COMPILE_STATUS sh)
                        (sh_infoLog sh) (S (sh_attached sh)) (sh_deleteFlag sh))
           s (shaders c))
    (alter (fun pr => mkProgram (pr_shaders pr ++ [s]) (LINK_STATUS pr)
                        (pr_infoLog pr))
           p (programs c))
    (next_name c).

Definition deleteShader (s : nat) (c : Context) : Context :=
  match shaders c !! s with
  | Some sh =>
      if Nat.eqb (sh_attached sh) 0
      then mkContext (delete s (shaders c)) (programs c) (next_name c)
      else mkContext
             (alter (fun sh => mkShader (sh_type sh) (sh_source sh)
                                 (COMPILE_STATUS sh) (sh_infoLog sh)
                                 (sh_attached sh) true)
                    s (shaders c))
             (programs c) (next_name c)
  | None => c
  end.

(** The attached shaders of a program, as the linker sees them. *)
Definition attached_sources (c : Context) (ss : list nat)
    : list (ShaderType * string) :=
  omap (fun s => option_map (fun sh => (sh_type sh, sh_source sh))
                   (shaders c !! s)) ss.

Definition all_compiled (c : Context) (ss : list nat) : bool :=
  forallb (fun s => getShaderParameter_COMPILE_STATUS s c) ss.

Definition linkProgram (p : nat) (c : Context) : Context :=
  mkContext (shaders c)
    (alter (fun pr =>
              let srcs := attached_sources c (pr_shaders pr) in
              mkProgram (pr_shaders pr)
                (all_compiled c (pr_shaders pr) && link_status drv srcs)
                (program_info_log drv srcs))
           p (programs c))
    (next_name c).

Definition getProgramParameter_LINK_STATUS (p : nat) (c : Context) : bool :=
  from_option LINK_STATUS false (programs c !! p).

Definition getProgramInfoLog (p : nat) (c : Context) : option string :=
  match programs c !! p with Some pr => pr_infoLog pr | None => None end.

(** Detaching a shader from a program that goes away. *)
Definition detach (s : nat) (ss : gmap nat Shader) : gmap nat Shader :=
  match ss !! s with
  | Some sh =>
      let n := Nat.pred (sh_attached sh) in
      if sh_deleteFlag sh && Nat.eqb n 0 then delete s ss
      else alter (fun sh => mkShader (sh_type sh) (sh_source sh)
                              (COMPILE_STATUS sh) (sh_infoLog sh)
                              (Nat.pred (sh_attached sh)) (sh_deleteFlag sh))
                 s ss
  | None => ss
  end.

Definition deleteProgram (p : nat) (c : Context) : Context :=
  match programs c !! p with
  | Some pr =>
      mkContext (foldr detach (shaders c) (pr_shaders pr))
                (delete p (programs c)) (next_name c)
  | None => c
  end.

End Calls.

(** Names not yet handed out are not in use. *)
Definition wf (c : Context) : Prop :=
  forall n, (next_name c <= n)%nat ->
    shaders c !! n = None /\ programs c !! n = None.

End GL.

(** ** The state of the page *)

(** [SceneWithCallback]: a [THREE.Scene] with an optional draw hook. The hook
    is referred to by the index of the closure that owns it. *)
Record SceneWithCallback := mkScene {
  scene_name : string;
  children : list THREE.Object3D;
  onDraw : option nat }.

Record WebGLRenderer := mkWebGLRenderer {
  size : Q * Q;
  outputColorSpace : string }.

(** The fields of [Renderer]. [threeRenderer], [scene] and [camera] are
    [undefined] ([None]) until the constructor has set them. *)
Record Renderer := mkRenderer {
  threeRenderer : option WebGLRenderer;
  setInnerWidth : Q;
  setInnerHeight : Q;
  scene : option SceneWithCallback;
  camera : option THREE.OrthographicCamera;
  enabled : bool;
  clock : THREE.Clock }.

(** The variables that one run of the effect of [App] shares between its
    wheel listener, its mousemove listener and its draw hook: the material
    [mat], the [resolution] read at the top of the effect, and the locals
    [mousePos], [mouseDrag] and [zoom]. *)
Record Closure := mkClosure {
  c_mat : nat;
  c_resolution : Q * Q;
  mousePos : THREE.Vector2;
  mouseDrag : THREE.Vector2;
  zoom : float }.

(** The React state of [App], and the geometry that App.tsx keeps with
    [useMemo]. *)
Record AppState := mkAppState {
  fragmentShader : string;
  fragmentShaderTemp : string;
  errors : string;
  showEditors : bool;
  geom : nat }.

Record World := mkWorld {
  now : Q;
  innerWidth : Q;
  innerHeight : Q;
  animationFrame : bool;
  closures : list Closure;
  uncaught : list string;
  gl : GL.Context;
  next_id : nat;
  materials : gmap nat THREE.ShaderMaterial;
  log : list Effect;
  renderer : Renderer;
  app : AppState }.

(** [animationFrame]: a [requestAnimationFrame] callback is pending.
    [closures]: the window listeners are never removed, so every closure ever
    made keeps receiving events. [uncaught]: messages of errors no handler
    caught. [next_id]: the next object identity three.js hands out. *)

Definition set_now (v : Q) (w : World) : World :=
  mkWorld v (innerWidth w) (innerHeight w) (animationFrame w) (closures w)
    (uncaught w) (gl w) (next_id w) (materials w) (log w) (renderer w) (app w).
Definition set_window (wd ht : Q) (w : World) : World :=
  mkWorld (now w) wd ht (animationFrame w) (closures w)
    (uncaught w) (gl w) (next_id w) (materials w) (log w) (renderer w) (app w).
Definition set_animationFrame (v : bool) (w : World) : World :=
  mkWorld (now w) (innerWidth w) (innerHeight w) v (closures w)
    (uncaught w) (gl w) (next_id w) (materials w) (log w) (renderer w) (app w).
Definition set_closures (v : list Closure) (w : World) : World :=
  mkWorld (now w) (innerWidth w) (innerHeight w) (animationFrame w) v
    (uncaught w) (gl w) (next_id w) (materials w) (log w) (renderer w) (app w).
Definition set_uncaught (v : list string) (w : World) : World :=
  mkWorld (now w) (innerWidth w) (innerHeight w) (animationFrame w) (closures w)
    v (gl w) (next_id w) (materials w) (log w) (renderer w) (app w).
Definition set_gl (v : GL.Context) (w : World) : World :=
  mkWorld (now w) (innerWidth w) (innerHeight w) (animationFrame w) (closures w)
    (uncaught w) v (next_id w) (materials w) (log w) (renderer w) (app w).
Definition set_next_id (v : nat) (w : World) : World :=
  mkWorld (now w) (innerWidth w) (innerHeight w) (animationFrame w) (closures w)
    (uncaught w) (gl w) v (materials w) (log w) (renderer w) (app w).
Definition set_materials (v : gmap nat THREE.ShaderMaterial) (w : World) : World :=
  mkWorld (now w) (innerWidth w) (innerHeight w) (animationFrame w) (closures w)
    (uncaught w) (gl w) (next_id w) v (log w) (renderer w) (app w).
Definition set_log (v : list Effect) (w : World) : World :=
  mkWorld (now w) (innerWidth w) (innerHeight w) (animationFrame w) (closures w)
    (uncaught w) (gl w) (next_id w) (materials w) v (renderer w) (app w).
Definition set_renderer (v : Renderer) (w : World) : World :=
  mkWorld (now w) (innerWidth w) (innerHeight w) (animationFrame w) (closures w)
    (uncaught w) (gl w) (next_id w) (materials w) (log w) v (app w).
Definition set_app (v : AppState) (w : World) : World :=
  mkWorld (now w) (innerWidth w) (innerHeight w) (animationFrame w) (closures w)
    (uncaught w) (gl w) (next_id w) (materials w) (log w) (renderer w) v.

Definition set_threeRenderer (v : option WebGLRenderer) (r : Renderer) :=
  mkRenderer v (setInnerWidth r) (setInnerHeight r) (scene r) (camera r)
    (enabled r) (clock r).
Definition set_setInner (wd ht : Q) (r : Renderer) :=
  mkRenderer (threeRenderer r) wd ht (scene r) (camera r) (enabled r) (clock r).
Definition set_scene (v : option SceneWithCallback) (r : Renderer) :=
  mkRenderer (threeRenderer r) (setInnerWidth r) (setInnerHeight r) v (camera r)
    (enabled r) (clock r).
Definition set_camera (v : option THREE.OrthographicCamera) (r : Renderer) :=
  mkRenderer (threeRenderer r) (setInnerWidth r) (setInnerHeight r) (scene r) v
    (enabled r) (clock r).
Definition set_enabled (v : bool) (r : Renderer) :=
  mkRenderer (threeRenderer r) (setInnerWidth r) (setInnerHeight r) (scene r)
    (camera r) v (clock r).
Definition set_clock (v : THREE.Clock) (r : Renderer) :=
  mkRenderer (threeRenderer r) (setInnerWidth r) (setInnerHeight r) (scene r)
    (camera r) (enabled r) v.

Definition set_children (v : list THREE.Object3D) (s : SceneWithCallback) :=
  mkScene (scene_name s) v (onDraw s).
Definition set_onDraw (v : option nat) (s : SceneWithCallback) :=
  mkScene (scene_name s) (children s) v.

Definition set_fragmentShader (v : string) (a : AppState) :=
  mkAppState v (fragmentShaderTemp a) (errors a) (showEditors a) (geom a).
Definition set_fragmentShaderTemp (v : string) (a : AppState) :=
  mkAppState (fragmentShader a) v (errors a) (showEditors a) (geom a).
Definition set_errors (v : string) (a : AppState) :=
  mkAppState (fragmentShader a) (fragmentShaderTemp a) v (showEditors a) (geom a).
Definition set_showEditors (v : bool) (a : AppState) :=
  mkAppState (fragmentShader a) (fragmentShaderTemp a) (errors a) v (geom a).
Definition set_geom (v : nat) (a : AppState) :=
  mkAppState (fragmentShader a) (fragmentShaderTemp a) (errors a) (showEditors a) v.

(** ** Computations that change the page and may throw *)

Inductive Result (A : Type) :=
| Ret (a : A)
| Throw (message : string).
Arguments Ret {A} a.
Arguments Throw {A} message.

(** What a computation has done before it throws stays done. *)
Definition M (A : Type) : Type := World -> Result A * World.

Definition ret {A} (a : A) : M A := fun w => (Ret a, w).
Definition throw {A} (message : string) : M A := fun w => (Throw message, w).
Definition bind {A B} (c : M A) (k : A -> M B) : M B :=
  fun w => match c w with
           | (Ret a, w') => k a w'
           | (Throw e, w') => (Throw e, w')
           end.
Definition try_catch {A} (c : M A) (handler : string -> M A) : M A :=
  fun w => match c w with
           | (Ret a, w') => (Ret a, w')
           | (Throw e, w') => handler e w'
           end.
Definition reads {A} (f : World -> A) : M A := fun w => (Ret (f w), w).
Definition modify (f : World -> World) : M unit := fun w => (Ret tt, f w).

Declare Scope m_scope.
Delimit Scope m_scope with M.
Notation "x <- c ;; k" := (bind c (fun x => k))
  (at level 100, c at next level, right associativity) : m_scope.
Notation "c ;; k" := (bind c (fun _ => k))
  (at level 100, right associativity) : m_scope.
Local Open Scope m_scope.

Definition when (b : bool) (c : M unit) : M unit := if b then c else ret tt.

Definition emit (es : list Effect) : M unit :=
  modify (fun w => set_log (log w ++ es) w).

Definition fresh : M nat :=
  fun w => (Ret (next_id w), set_next_id (S (next_id w)) w).

Definition gl_call {A} (f : GL.Context -> A * GL.Context) : M A :=
  fun w => let '(a, c) := f (gl w) in (Ret a, set_gl c w).
Definition gl_do (f : GL.Context -> GL.Context) : M unit :=
  modify (fun w => set_gl (f (gl w)) w).
Definition gl_get {A} (f : GL.Context -> A) : M A := reads (fun w => f (gl w)).

(** Reading a property of [undefined]. *)
Definition TypeError : string := "TypeError: Cannot read properties of undefined".

Definition the_scene : M SceneWithCallback :=
  fun w => match scene (renderer w) with
           | Some s => (Ret s, w)
           | None => (Throw TypeError, w)
           end.
Definition the_threeRenderer : M WebGLRenderer :=
  fun w => match threeRenderer (renderer w) with
           | Some t => (Ret t, w)
           | None => (Throw TypeError, w)
           end.
Definition modify_renderer (f : Renderer -> Renderer) : M unit :=
  modify (fun w => set_renderer (f (renderer w)) w).
Definition put_scene (s : SceneWithCallback) : M unit :=
  modify_renderer (set_scene (Some s)).

(** ** [Renderer]: the render host *)

Section Host.
Variable drv : GL.Driver.

Definition recreateCamera : M unit :=
  i <- fresh ;;
  modify_renderer
    (set_camera (Some (THREE.mkOrthographicCamera i (-1) 1 1 (-1) 0.1 10))).

Definition getElapsedTime : M Q :=
  fun w =>
    let '(t, c) := THREE.Clock_getElapsedTime (now w) (clock (renderer w)) in
    (Ret t, set_renderer (set_clock c (renderer w)) w).

(** What [switchScene] disposes for one child of the outgoing scene. *)
Definition dispose_child (c : THREE.Object3D) : list Effect :=
  match THREE.kind c with
  | THREE.Mesh g m =>
      GeometryDispose g :: map MaterialDispose (THREE.materials_of m)
  | THREE.PlainObject => []
  end.

Definition switchScene (name : string) : M unit :=
  r <- reads renderer ;;
  when (match scene r with
        | Some s => negb (String.eqb (scene_name s) name)
        | None => true
        end)
    ((match scene r with
      | Some s => emit (flat_map dispose_child (children s))
      | None => ret tt
      end) ;;
     (match threeRenderer r with
      | Some _ => emit [RenderListsDispose]
      | None => ret tt
      end) ;;
     put_scene (mkScene name [] None) ;;
     recreateCamera).

Definition getResolution : M (Q * Q) :=
  reads (fun w => (innerWidth w, innerHeight w)).

Definition compile : M unit :=
  _ <- the_threeRenderer ;;
  _ <- the_scene ;;
  emit [Precompile].

Definition createShader (src : string) (type : GL.ShaderType) : M nat :=
  _ <- the_threeRenderer ;;
  shader <- gl_call (GL.createShader type) ;;
  gl_do (GL.shaderSource shader src) ;;
  gl_do (GL.compileShader drv shader) ;;
  ok <- gl_get (GL.getShaderParameter_COMPILE_STATUS shader) ;;
  if negb ok then
    l <- gl_get (GL.getShaderInfoLog shader) ;;
    throw (default "Cannot compile" l)
  else ret shader.

Definition verifyShaderProgram (vertex fragment : string) : M unit :=
  _ <- the_threeRenderer ;;
  program <- gl_call GL.createProgram ;;
  let vertex := String.append Sources.vertexPreamble vertex in
  let fragment := String.append Sources.fragmentPreamble fragment in
  vs <- createShader vertex GL.VERTEX_SHADER ;;
  fs <- createShader fragment GL.FRAGMENT_SHADER ;;
  gl_do (GL.attachShader program vs) ;;
  gl_do (GL.attachShader program fs) ;;
  gl_do (GL.deleteShader vs) ;;
  gl_do (GL.deleteShader fs) ;;
  gl_do (GL.linkProgram drv program) ;;
  ok <- gl_get (GL.getProgramParameter_LINK_STATUS program) ;;
  if negb ok then
    l <- gl_get (GL.getProgramInfoLog program) ;;
    throw (default "Cannot link" l)
  else gl_do (GL.deleteProgram program).

Definition setSize (wd ht : Q) : M unit :=
  t <- the_threeRenderer ;;
  modify_renderer
    (set_threeRenderer (Some (mkWebGLRenderer (wd, ht) (outputColorSpace t)))) ;;
  emit [SetSize wd ht].

Definition onResize : M unit :=
  wd <- reads innerWidth ;;
  ht <- reads innerHeight ;;
  setSize wd ht ;;
  modify_renderer (set_setInner wd ht) ;;
  recreateCamera.

(** The values that the draw hook of a closure gives to the uniforms of its
    material, at the clock reading [t]. *)
Definition hook_uniforms (t : Q) (c : Closure) : THREE.Uniforms :=
  let resolution := c_resolution c in
  THREE.mkUniforms t
    (THREE.mkVector2 resolution.1 resolution.2)
    (THREE.mkVector2 (THREE.x (mousePos c) / resolution.1)
                     (THREE.y (mousePos c) / resolution.2))
    (THREE.mkVector2 (THREE.x (mouseDrag c) / resolution.1)
                     (THREE.y (mouseDrag c) / resolution.2))
    (zoom c).

Definition set_uniforms (u : THREE.Uniforms) (m : THREE.ShaderMaterial) :=
  THREE.mkShaderMaterial u (THREE.vertexShader m) (THREE.fragmentShader m)
    (THREE.depthWrite m) (THREE.depthTest m).

(** The function that the effect of [App] stores in [scene.onDraw], for the
    closure [h]: it ignores the frame timestamp. *)
Definition draw_hook (h : nat) : M unit :=
  cs <- reads closures ;;
  match cs !! h with
  | Some c =>
      t <- getElapsedTime ;;
      modify (fun w =>
        set_materials
          (alter (set_uniforms (hook_uniforms t c)) (c_mat c) (materials w)) w)
  | None => ret tt
  end.

Definition requestAnimationFrame : M unit := modify (set_animationFrame true).

Definition render : M unit :=
  _ <- the_threeRenderer ;;
  s <- the_scene ;;
  emit [Render (scene_name s) (map THREE.id (children s))].

Definition renderLoop (time : Q) : M unit :=
  r <- reads renderer ;;
  wd <- reads innerWidth ;;
  ht <- reads innerHeight ;;
  when (negb (Qeq_bool (setInnerWidth r) wd)
        || negb (Qeq_bool (setInnerHeight r) ht)) onResize ;;
  render ;;
  s <- the_scene ;;
  (match onDraw s with
   | Some h => draw_hook h
   | None => ret tt
   end) ;;
  en <- reads (fun w => enabled (renderer w)) ;;
  when en requestAnimationFrame.

Definition enable : M unit :=
  modify_renderer (set_enabled true) ;;
  requestAnimationFrame.

Definition disable : M unit := modify_renderer (set_enabled false).

(** [new Renderer()]: the field initialiser of [clock], then the body of the
    constructor. *)
Definition Renderer_new : M unit :=
  modify_renderer (set_clock THREE.Clock_new) ;;
  modify_renderer (set_enabled false) ;;
  switchScene "empty" ;;
  wd <- reads innerWidth ;;
  ht <- reads innerHeight ;;
  modify_renderer (set_threeRenderer (Some (mkWebGLRenderer (wd, ht) "srgb"))) ;;
  setSize wd ht ;;
  recreateCamera ;;
  modify_renderer (set_setInner wd ht).

(** ** [App]: the shader editor panel *)

(** The two scene-graph variants of the component. [NamedQuad] is
    src/components/App.tsx: it names the quad, remembers its material in
    [userData] and shares one geometry. [UnnamedQuad] is the other one: it
    looks the quad up under the name "quad", makes a geometry for each quad
    and precompiles the scene. *)
Inductive Variant := NamedQuad | UnnamedQuad.

Definition initFragmentShader (v : Variant) : string :=
  match v with
  | NamedQuad => Sources.initFragmentShader_quadX
  | UnnamedQuad => Sources.initFragmentShader_quad
  end.

Definition setErrors (v : string) : M unit :=
  modify (fun w => set_app (set_errors v (app w)) w).

Definition new_ShaderMaterial (m : THREE.ShaderMaterial) : M nat :=
  i <- fresh ;;
  modify (fun w => set_materials (<[i := m]> (materials w)) w) ;;
  ret i.

Definition new_Mesh (geometry mat : nat) : M THREE.Object3D :=
  i <- fresh ;;
  ret (THREE.mkObject3D i "" (THREE.Mesh geometry (THREE.SingleMaterial mat)) None).

Definition new_PlaneGeometry : M nat := fresh.

(** [renderer.scene.remove(object)] *)
Definition scene_remove (object : THREE.ObjectRef) : M unit :=
  s <- the_scene ;;
  match object with
  | THREE.This => ret tt
  | THREE.Child o =>
      when (THREE.is_child (THREE.id o) (children s))
        (put_scene
           (set_children (THREE.splice_object (THREE.id o) (children s)) s) ;;
         emit [SceneRemove (THREE.id o)])
  end.

(** [renderer.scene.add(object)], for an object that has no parent yet *)
Definition scene_add (object : THREE.Object3D) : M unit :=
  s <- the_scene ;;
  put_scene (set_children (children s ++ [object]) s) ;;
  emit [SceneAdd (THREE.id object)].

Definition scene_getObjectByName (n : string) : M (option THREE.ObjectRef) :=
  s <- the_scene ;;
  ret (THREE.getObjectByName (scene_name s) (children s) n).

(** [oldQuad.userData.material]: a scene has an empty [userData]. *)
Definition userData_material_of (object : THREE.ObjectRef) : option nat :=
  match object with
  | THREE.This => None
  | THREE.Child o => THREE.userData_material o
  end.

Definition material_dispose (material : option nat) : M unit :=
  match material with
  | Some m => emit [MaterialDispose m]
  | None => throw TypeError
  end.

(** The two [window.addEventListener] calls: the listeners share the locals
    of this run of the effect. The result is the index of the closure. *)
Definition addEventListeners (c : Closure) : M nat :=
  cs <- reads closures ;;
  modify (set_closures (cs ++ [c])) ;;
  ret (length cs).

Definition set_scene_onDraw (h : option nat) : M unit :=
  s <- the_scene ;;
  put_scene (set_onDraw h s).

(** The quad replacement of each variant. *)
Definition replace_quad (v : Variant) (mat : nat) : M unit :=
  match v with
  | NamedQuad =>
      oldQuad <- scene_getObjectByName "quadX" ;;
      (match oldQuad with
       | Some object =>
           let material := userData_material_of object in
           scene_remove object ;;
           material_dispose material
       | None => ret tt
       end) ;;
      g <- reads (fun w => geom (app w)) ;;
      quad <- new_Mesh g mat ;;
      let quad := THREE.mkObject3D (THREE.id quad) "quadX" (THREE.kind quad)
                    (Some mat) in
      scene_add quad
  | UnnamedQuad =>
      oldQuad <- scene_getObjectByName "quad" ;;
      (match oldQuad with
       | Some object => scene_remove object
       | None => ret tt
       end) ;;
      g <- new_PlaneGeometry ;;
      quad <- new_Mesh g mat ;;
      scene_add quad ;;
      compile
  end.

(** The body of [useEffect], run after a render whose [fragmentShader]
    changed. *)
Definition effect (v : Variant) : M unit :=
  fragmentShader <- reads (fun w => fragmentShader (app w)) ;;
  switchScene "quad" ;;
  resolution <- getResolution ;;
  try_catch
    (verifyShaderProgram Sources.vertexShader fragmentShader ;;
     t <- getElapsedTime ;;
     mat <- new_ShaderMaterial
              (THREE.mkShaderMaterial
                 (THREE.mkUniforms t
                    (THREE.mkVector2 resolution.1 resolution.2)
                    (THREE.mkVector2 0 0) (THREE.mkVector2 0 0) 1%float)
                 Sources.vertexShader fragmentShader false false) ;;
     replace_quad v mat ;;
     h <- addEventListeners
            (mkClosure mat resolution (THREE.mkVector2 0 0)
               (THREE.mkVector2 0 0) 1%float) ;;
     set_scene_onDraw (Some h) ;;
     setErrors "")
    (fun e => setErrors e).

(** The function the effect returns. *)
Definition cleanup : M unit := set_scene_onDraw None.

(** The listeners of one closure. *)
Definition on_wheel (deltaY : float) (c : Closure) : Closure :=
  mkClosure (c_mat c) (c_resolution c) (mousePos c) (mouseDrag c)
    (zoom c - deltaY * 0.001)%float.

Definition on_mousemove (clientX clientY : Q) (buttons : N) (c : Closure)
    : Closure :=
  let newPos := THREE.mkVector2 clientX clientY in
  let deltaPos := THREE.mkVector2 (THREE.x newPos - THREE.x (mousePos c))
                                  (THREE.y newPos - THREE.y (mousePos c)) in
  let mouseDrag' :=
    if N.eqb buttons 1
    then THREE.mkVector2 (THREE.x (mouseDrag c) + THREE.x deltaPos)
                         (THREE.y (mouseDrag c) + THREE.y deltaPos)
    else mouseDrag c in
  mkClosure (c_mat c) (c_resolution c) newPos mouseDrag' (zoom c).

End Host.

(** ** Events of the page *)

Inductive Event :=
| Elapse (ms : Q)
| WindowResize (wd ht : Q)
| Wheel (deltaY : float)
| MouseMove (clientX clientY : Q) (buttons : N)
| AnimationFrame
| EditorChange (value : string)
| ClickToggleEditors
| ClickCompile.

(** Running a handler to its end: an error it does not catch is reported and
    what the handler did before stays done. *)
Definition handle (c : M unit) (w : World) : World :=
  match c w with
  | (Ret _, w') => w'
  | (Throw e, w') => set_uncaught (uncaught w' ++ [e]) w'
  end.

Section Page.
Variable drv : GL.Driver.
Variable v : Variant.

(** [setFragmentShader(value)]: React keeps the state and runs nothing when
    the value is the one it has; otherwise the component renders again, the
    cleanup of the last effect runs, then the effect. *)
Definition setFragmentShader (value : string) (w : World) : World :=
  if String.eqb value (fragmentShader (app w)) then w
  else handle (effect drv v)
         (handle cleanup (set_app (set_fragmentShader value (app w)) w)).

(** The Compile button. *)
Definition onClickCompile (w : World) : World :=
  setFragmentShader (fragmentShaderTemp (app w)) w.

(** The callback of the pending animation frame. *)
Definition onAnimationFrame (w : World) : World :=
  if animationFrame w
  then handle (renderLoop (now w)) (set_animationFrame false w)
  else w.

Definition step (e : Event) (w : World) : World :=
  match e with
  | Elapse ms => set_now (now w + ms) w
  | WindowResize wd ht => set_window wd ht w
  | Wheel deltaY => set_closures (map (on_wheel deltaY) (closures w)) w
  | MouseMove clientX clientY buttons =>
      set_closures (map (on_mousemove clientX clientY buttons) (closures w)) w
  | AnimationFrame => onAnimationFrame w
  | EditorChange value =>
      if showEditors (app w)
      then set_app (set_fragmentShaderTemp value (app w)) w
      else w
  | ClickToggleEditors =>
      set_app (set_showEditors (negb (showEditors (app w))) (app w)) w
  | ClickCompile => if showEditors (app w) then onClickCompile w else w
  end.

Definition run (es : list Event) (w : World) : World :=
  fold_left (fun w e => step e w) es w.

(** The first render of [App]: the initial state, the memoised geometry of
    App.tsx, then the effect; under [React.StrictMode] a development build
    runs the cleanup and the effect once more. *)
Definition mount (development : bool) (w : World) : World :=
  let init := initFragmentShader v in
  let w := set_app (mkAppState init init "" true 0) w in
  let w := match v with
           | NamedQuad =>
               set_app (set_geom (next_id w) (app w)) (set_next_id (S (next_id w)) w)
           | UnnamedQuad => w
           end in
  let w := handle (effect drv v) w in
  if development then handle (effect drv v) (handle cleanup w) else w.

(** main.tsx *)
Definition main (development : bool) (w : World) : World :=
  mount development (handle enable (handle Renderer_new w)).

End Page.

(** A page that has just loaded, at time [t] with a window of [wd] by [ht]. *)
Definition page (t wd ht : Q) : World :=
  mkWorld t wd ht false [] [] GL.empty_context 0 ∅ []
    (mkRenderer None 0 0 None None false THREE.Clock_new)
    (mkAppState "" "" "" true 0).

(** ** The feedback-buffer variant: its pointer handlers *)

Module Feedback.

(** [THREE.Vector2], with the doubles its components are. *)
Record Vector2 := mkVector2 { x : float; y : float }.

Record Uniforms := mkUniforms {
  time : float;
  resolution : Vector2;
  mouse : Vector2;
  drag : Vector2;
  zoom : float;
  ratio : float }.

(** The [useMemo] initialiser, given the clock reading and the renderer size. *)
Definition init (elapsed : float) (tmpRendererSize : Vector2) : Uniforms :=
  mkUniforms elapsed tmpRendererSize (mkVector2 0 0) (mkVector2 0 0) 1 1.


(** [onMouseMove] of the outer element: [Vector2.divide] divides component
    by component. *)
Definition onMouseMove (rdrSize : Vector2) (clientX clientY : float)
    (buttons : N) (u : Uniforms) : Uniforms :=
  let newPos := mkVector2 (clientX / x rdrSize)%float
                          (1 - clientY / y rdrSize)%float in
  let deltaPos := mkVector2 (x newPos - x (mouse u))%float
                            (y newPos - y (mouse u))%float in
  let drag' :=
    if N.eqb buttons 1
    then mkVector2 (x (drag u) + x deltaPos)%float
                   (y (drag u) + y deltaPos)%float
    else drag u in
  mkUniforms (time u) (resolution u) newPos drag' (zoom u) (ratio u).

End Feedback.

(** ** Drivers used in examples *)

(** A driver that accepts every source. *)
Definition accepting : GL.Driver :=
  GL.mkDriver (fun _ _ => true) (fun _ _ => Some "")
              (fun _ => true) (fun _ => Some "").

Definition mentions (needle src : string) : bool :=
  match String.index 0 needle src with Some _ => true | None => false end.

(** A driver that rejects a source that contains the directive [#error], and
    reports a log for it. *)
Definition rejecting_error_directive : GL.Driver :=
  GL.mkDriver
    (fun _ src => negb (mentions "#error" src))
    (fun _ src => if mentions "#error" src then Some "ERROR: 0:1: '#error'"
                  else Some "")
    (fun _ => true) (fun _ => Some "").

(** A driver that rejects every source and reports no log. *)
Definition silent : GL.Driver :=
  GL.mkDriver (fun _ _ => false) (fun _ _ => None)
              (fun _ => false) (fun _ => None).

(** ** Vocabulary of the properties *)

(** The steps of a validation, in the order [verifyShaderProgram] takes them,
    and what the driver answers at each for a vertex and a fragment source. *)
Inductive Stage := VertexCompile | FragmentCompile | ProgramLink.

Section Validation.
Variable drv : GL.Driver.
Variables vertex fragment : string.

Definition wrapped_vertex : string :=
  String.append Sources.vertexPreamble vertex.
Definition wrapped_fragment : string :=
  String.append Sources.fragmentPreamble fragment.
Definition linked_sources : list (GL.ShaderType * string) :=
  [(GL.VERTEX_SHADER, wrapped_vertex); (GL.FRAGMENT_SHADER, wrapped_fragment)].

Definition stage_succeeds (s : Stage) : bool :=
  match s with
  | VertexCompile => GL.compile_status drv GL.VERTEX_SHADER wrapped_vertex
  | FragmentCompile => GL.compile_status drv GL.FRAGMENT_SHADER wrapped_fragment
  | ProgramLink => GL.link_status drv linked_sources
  end.

Definition stage_log (s : Stage) : option string :=
  match s with
  | VertexCompile => GL.shader_info_log drv GL.VERTEX_SHADER wrapped_vertex
  | FragmentCompile => GL.shader_info_log drv GL.FRAGMENT_SHADER wrapped_fragment
  | ProgramLink => GL.program_info_log drv linked_sources
  end.

(** The first step that fails, if any. *)
Definition first_failure : option Stage :=
  find (fun s => negb (stage_succeeds s))
       [VertexCompile; FragmentCompile; ProgramLink].

(** The text raised when the driver reports no log for a failed step. *)
Definition fallback (s : Stage) : string :=
  match s with
  | VertexCompile | FragmentCompile => "Cannot compile"
  | ProgramLink => "Cannot link"
  end.

End Validation.

(** The message a validation of a fragment source raises in [App], if any. *)
Definition diagnostic (drv : GL.Driver) (fragment : string) : option string :=
  option_map
    (fun s => default (fallback s) (stage_log drv Sources.vertexShader fragment s))
    (first_failure drv Sources.vertexShader fragment).

(** The geometry and every material of a mesh, in the words of the
    description of [switchScene]: the one material of a mesh that has a
    single one, each material of a mesh that has an array of them; nothing
    for a child that is no mesh. *)
Definition geometry_and_every_material (o : THREE.Object3D) : list Effect :=
  match THREE.kind o with
  | THREE.Mesh g (THREE.SingleMaterial m) =>
      [GeometryDispose g; MaterialDispose m]
  | THREE.Mesh g (THREE.MaterialArray ms) =>
      GeometryDispose g :: map MaterialDispose ms
  | THREE.PlainObject => []
  end.

(** The meshes of the active scene. *)
Definition drawables (w : World) : list THREE.Object3D :=
  match scene (renderer w) with
  | Some s => filter (fun o => THREE.is_mesh o = true) (children s)
  | None => []
  end.

(** The closure whose draw hook the active scene calls, and the uniforms of
    its material. *)
Definition active_closure (w : World) : option Closure :=
  match scene (renderer w) with
  | Some s => match onDraw s with
              | Some h => closures w !! h
              | None => None
              end
  | None => None
  end.

Definition active_uniforms (w : World) : option THREE.Uniforms :=
  match active_closure w with
  | Some c => option_map THREE.uniforms (materials w !! c_mat c)
  | None => None
  end.

(** What the listeners of one closure make of an event. *)
Definition closure_step (e : Event) (c : Closure) : Closure :=
  match e with
  | Wheel deltaY => on_wheel deltaY c
  | MouseMove clientX clientY buttons => on_mousemove clientX clientY buttons c
  | _ => c
  end.

Definition evolve (es : list Event) (c : Closure) : Closure :=
  fold_left (fun c e => closure_step e c) es c.

Definition is_compile (e : Event) : bool :=
  match e with ClickCompile => true | _ => false end.

Definition no_compile (es : list Event) : bool :=
  forallb (fun e => negb (is_compile e)) es.





Definition Qsum (l : list Q) : Q := foldr Qplus 0%Q l.

(** The pointer moves of a sequence of events as deltas: each move is taken
    relative to the position of the move before it, the first one relative
    to [from]. A delta comes with the [buttons] of its move. *)
Fixpoint move_deltas (from : THREE.Vector2) (es : list Event)
    : list (Q * Q * N) :=
  match es with
  | [] => []
  | MouseMove clientX clientY buttons :: rest =>
      ((clientX - THREE.x from)%Q, (clientY - THREE.y from)%Q, buttons)
        :: move_deltas (THREE.mkVector2 clientX clientY) rest
  | _ :: rest => move_deltas from rest
  end.

(** The primary button is bit 0 of [MouseEvent.buttons]. *)
Definition primary_held (buttons : N) : bool := N.testbit buttons 0.

(** ... and [buttons = 1] says that it is the only button held. *)
Definition primary_alone (buttons : N) : bool := N.eqb buttons 1.

Definition sum_dx (held : N -> bool) (ds : list (Q * Q * N)) : Q :=
  Qsum (map (fun d => d.1.1) (filter (fun d => held d.2 = true) ds)).
Definition sum_dy (held : N -> bool) (ds : list (Q * Q * N)) : Q :=
  Qsum (map (fun d => d.1.2) (filter (fun d => held d.2 = true) ds)).

(** A running clock has counted the time from its start to its last
    reading. *)
Definition clock_ok (c : THREE.Clock) : Prop :=
  THREE.autoStart c = true /\
  (THREE.running c = true ->
   (THREE.elapsedTime c == (THREE.oldTime c - THREE.startTime c) / 1000)%Q).

(** The quad of the scene of App.tsx: none, or one that carries its name and
    remembers its material. *)
Definition quad_ok (v : Variant) (cs : list THREE.Object3D) : Prop :=
  match v with
  | NamedQuad =>
      cs = [] \/
      exists i g m,
        cs = [THREE.mkObject3D i "quadX" (THREE.Mesh g (THREE.SingleMaterial m))
                (Some m)]
  | UnnamedQuad => True
  end.

(** What holds of the page whenever an effect of [App] starts. *)
Record Pre (v : Variant) (w : World) : Prop := mkPre {
  pre_three : is_Some (threeRenderer (renderer w));
  pre_scene : exists s, scene (renderer w) = Some s /\ scene_name s = "quad" /\
                        quad_ok v (children s);
  pre_gl : GL.wf (gl w);
  pre_loop : animationFrame w = true /\ enabled (renderer w) = true;
  pre_uncaught : uncaught w = [];
  pre_clock : clock_ok (clock (renderer w)) }.

(** What holds of the page between events: moreover the displayed errors are
    those of the committed source, and the scene has a draw hook, that of the
    last closure, exactly when the committed source is valid. *)
Record Inv (drv : GL.Driver) (v : Variant) (w : World) : Prop := mkInv {
  inv_pre : Pre v w;
  inv_errors :
    errors (app w) = default "" (diagnostic drv (fragmentShader (app w)));
  inv_hook :
    exists s, scene (renderer w) = Some s /\
      match diagnostic drv (fragmentShader (app w)) with
      | Some _ => onDraw s = None
      | None =>
          exists c, onDraw s = Some (Nat.pred (length (closures w))) /\
                    last (closures w) = Some c /\
                    is_Some (materials w !! c_mat c)
      end }.

(** The pages the program can be in. *)
Definition reachable (drv : GL.Driver) (v : Variant) (w : World) : Prop :=
  exists development t wd ht es,
    w = run drv v es (main drv v development (page t wd ht)).

(** The pages on which the effect of [App] has just run: the page of the
    first render, and the page after a compile action that commits a draft
    other than the committed source. *)
Inductive effect_has_run (drv : GL.Driver) (v : Variant) : World -> Prop :=
| ran_at_first_render development t wd ht :
    effect_has_run drv v (main drv v development (page t wd ht))
| ran_at_compile_action w :
    reachable drv v w ->
    fragmentShaderTemp (app w) <> fragmentShader (app w) ->
    effect_has_run drv v (onClickCompile drv v w).

(** ** The page after a successful run of the effect *)

(** The material and the closure that the effect makes, and the quad it
    adds. *)
Definition seeded_material (t : Q) (w : World) : THREE.ShaderMaterial :=
  THREE.mkShaderMaterial
    (THREE.mkUniforms t (THREE.mkVector2 (innerWidth w) (innerHeight w))
       (THREE.mkVector2 0 0) (THREE.mkVector2 0 0) 1%float)
    Sources.vertexShader (fragmentShader (app w)) false false.

Definition fresh_closure (w : World) : Closure :=
  mkClosure (next_id w) (innerWidth w, innerHeight w)
    (THREE.mkVector2 0 0) (THREE.mkVector2 0 0) 1%float.

Definition new_quad (v : Variant) (w : World) : THREE.Object3D :=
  match v with
  | NamedQuad =>
      THREE.mkObject3D (S (next_id w)) "quadX"
        (THREE.Mesh (geom (app w)) (THREE.SingleMaterial (next_id w)))
        (Some (next_id w))
  | UnnamedQuad =>
      THREE.mkObject3D (S (S (next_id w))) ""
        (THREE.Mesh (S (next_id w)) (THREE.SingleMaterial (next_id w))) None
  end.

(** What the replacement does to the quads that were there: App.tsx removes
    the old quad and disposes its material, the other variant keeps every
    quad. *)
Definition removal (v : Variant) (cs : list THREE.Object3D) : list Effect :=
  match v, cs with
  | NamedQuad, q :: _ =>
      SceneRemove (THREE.id q)
        :: match THREE.userData_material q with
           | Some m => [MaterialDispose m]
           | None => []
           end
  | _, _ => []
  end.

Definition kept (v : Variant) (cs : list THREE.Object3D) : list THREE.Object3D :=
  match v with
  | NamedQuad => []
  | UnnamedQuad => cs
  end.

Definition compiled (v : Variant) (c : GL.Context) (w : World) : World :=
  match scene (renderer w) with
  | Some s =>
      let t := THREE.Clock_getElapsedTime (now w) (clock (renderer w)) in
      mkWorld (now w) (innerWidth w) (innerHeight w) (animationFrame w)
        (closures w ++ [fresh_closure w]) (uncaught w) c
        (S (THREE.id (new_quad v w)))
        (<[next_id w := seeded_material t.1 w]> (materials w))
        (log w ++ removal v (children s) ++ [SceneAdd (THREE.id (new_quad v w))]
           ++ match v with NamedQuad => [] | UnnamedQuad => [Precompile] end)
        (set_clock t.2
           (set_scene
              (Some (mkScene (scene_name s) (kept v (children s) ++ [new_quad v w])
                       (Some (length (closures w)))))
              (renderer w)))
        (set_errors "" (app w))
  | None => w
  end.

(** ** The page after an animation frame *)

(** The three parts of [renderLoop]: the resize when the window has changed,
    the drawing of the scene, and the draw hook. *)
Definition resized (w : World) : World :=
  let r := renderer w in
  if negb (Qeq_bool (setInnerWidth r) (innerWidth w))
     || negb (Qeq_bool (setInnerHeight r) (innerHeight w))
  then
    match threeRenderer r with
    | Some t =>
        set_next_id (S (next_id w))
          (set_log (log w ++ [SetSize (innerWidth w) (innerHeight w)])
             (set_renderer
                (set_camera
                   (Some (THREE.mkOrthographicCamera (next_id w)
                            (-1) 1 1 (-1) 0.1 10))
                   (set_setInner (innerWidth w) (innerHeight w)
                      (set_threeRenderer
                         (Some (mkWebGLRenderer (innerWidth w, innerHeight w)
                                  (outputColorSpace t))) r))) w))
    | None => w
    end
  else w.

Definition drawn (w : World) : World :=
  match scene (renderer w) with
  | Some s =>
      set_log (log w ++ [Render (scene_name s) (map THREE.id (children s))]) w
  | None => w
  end.

Definition hooked (w : World) : World :=
  match active_closure w with
  | Some c =>
      let t := THREE.Clock_getElapsedTime (now w) (clock (renderer w)) in
      set_materials
        (alter (set_uniforms (hook_uniforms t.1 c)) (c_mat c) (materials w))
        (set_renderer (set_clock t.2 (renderer w)) w)
  | None => w
  end.

Definition after_frame (w : World) : World :=
  let w' := hooked (drawn (resized w)) in
  set_animationFrame (enabled (renderer w')) w'.

(** ** Statements about the drag and about a failed compile *)

(** The drag uniforms [u] are the sum of the deltas of the moves of [es] made
    with a button state accepted by [held], the delta of the first move taken
    from the position [from], divided by the width and the height that the
    window has on the page [w]. *)
Definition drag_is_normalised_sum (held : N -> bool) (from : THREE.Vector2)
    (w : World) (es : list Event) (u : THREE.Uniforms) : Prop :=
  let ds := move_deltas from es in
  (THREE.x (THREE.drag u) == sum_dx held ds / innerWidth w)%Q /\
  (THREE.y (THREE.drag u) == sum_dy held ds / innerHeight w)%Q.

(** A compile action that fails validation leaves the scene with its draw
    hook, the materials and the render loop as they were, and changes the
    displayed error only. *)
Definition failed_compile_changes_only_the_diagnostic
    (drv : GL.Driver) (v : Variant) (w : World) : Prop :=
  forall message,
    (verifyShaderProgram drv Sources.vertexShader
       (fragmentShaderTemp (app w)) w).1 = Throw message ->
    let w' := onClickCompile drv v w in
    scene (renderer w') = scene (renderer w) /\
    materials w' = materials w /\
    animationFrame w' = animationFrame w /\
    w' = set_app (set_errors message (app w)) w.

(** A page whose render host has been constructed and nothing else. *)
Definition constructed : World := handle Renderer_new (page 0 800 600).

(** A driver whose linker rejects every program. *)
Definition never_linking : GL.Driver :=
  GL.mkDriver (fun _ _ => true) (fun _ _ => Some "")
              (fun _ => false) (fun _ => Some "link failed").

(** The page in which the effect of a compile action starts: the draft is
    committed and the cleanup of the last effect has taken the draw hook
    away. *)
Definition committing (value : string) (s : SceneWithCallback) (w : World)
    : World :=
  set_renderer (set_scene (Some (set_onDraw None s)) (renderer w))
    (set_app (set_fragmentShader value (app w)) w).

(** A computation that changes nothing but the GL context. *)
Definition only_gl {A} (c : M A) : Prop :=
  forall w, exists g, (c w).2 = set_gl g w.

(** ** Further vocabulary: input events, the export, the feedback variant *)

Definition is_frame (e : Event) : bool :=
  match e with AnimationFrame => true | _ => false end.

(** Events that are neither an animation frame nor a compile action. *)
Definition input_only (es : list Event) : bool :=
  forallb (fun e => negb (is_frame e) && negb (is_compile e)) es.

(** Every pointer move of the sequence is made with [buttons = 1]. *)
Definition all_held (es : list Event) : bool :=
  forallb (fun e => match e with
                    | MouseMove _ _ buttons => N.eqb buttons 1
                    | _ => true
                    end) es.

(** The position of the last pointer move of a sequence, [from] when it has
    none. *)
Fixpoint last_position (from : THREE.Vector2) (es : list Event)
    : THREE.Vector2 :=
  match es with
  | [] => from
  | MouseMove clientX clientY _ :: rest =>
      last_position (THREE.mkVector2 clientX clientY) rest
  | _ :: rest => last_position from rest
  end.

(** [saveAs] of App.tsx: the file that the synthetic link downloads. The
    element is appended and removed again, so the page is as before. [iso]
    is [new Date().toISOString()]. *)
Record Download := mkDownload {
  blob_parts : list string;
  blob_type : string;
  download : string }.

Definition saveAs (iso : string) (w : World) : Download * World :=
  (mkDownload [fragmentShader (app w)] "text/plain"
     (String.append "fragment-" (String.append iso ".glsl")), w).

(** The pointer moves of the feedback-buffer variant, one after the other:
    each is the size of the renderer at that time, then [clientX], [clientY]
    and [buttons]. *)
Definition Feedback_moves (ms : list (Feedback.Vector2 * float * float * N))
    (u : Feedback.Uniforms) : Feedback.Uniforms :=
  fold_left
    (fun u m => Feedback.onMouseMove m.1.1.1 m.1.1.2 m.1.2 m.2 u) ms u.

(** * Properties *)

Ltac exec :=
  lazy beta iota zeta delta
    [handle effect cleanup try_catch bind reads ret throw modify when emit fresh
     gl_call gl_do gl_get the_scene the_threeRenderer modify_renderer put_scene
     switchScene getResolution getElapsedTime new_ShaderMaterial replace_quad
     scene_getObjectByName scene_remove scene_add userData_material_of
     material_dispose new_Mesh new_PlaneGeometry compile addEventListeners
     set_scene_onDraw setErrors recreateCamera
     renderLoop onResize setSize render draw_hook requestAnimationFrame
     enable disable Renderer_new
     THREE.getObjectByName THREE.is_child THREE.splice_object
     THREE.Clock_getElapsedTime
     existsb find option_map String.eqb Ascii.eqb Bool.eqb negb orb andb
     fst snd
     set_now set_window set_animationFrame set_closures set_uncaught set_gl
     set_next_id set_materials set_log set_renderer set_app
     set_threeRenderer set_setInner set_scene set_camera set_enabled set_clock
     set_children set_onDraw
     set_fragmentShader set_fragmentShaderTemp set_errors set_showEditors set_geom
     now innerWidth innerHeight animationFrame closures uncaught gl next_id
     materials log renderer app
     threeRenderer setInnerWidth setInnerHeight scene camera enabled clock
     scene_name children onDraw size outputColorSpace
     fragmentShader fragmentShaderTemp errors showEditors geom
     THREE.id THREE.name THREE.kind THREE.userData_material
     compiled new_quad removal kept fresh_closure seeded_material].
(** [know_true b H]: the test [b], which [H] shows to succeed, is decided in
    the goal. *)
Ltac know_true b H :=
  let x := fresh "b" in
  let E := fresh "E" in
  pose proof H as E; set (x := b) in *; clearbody x;
  destruct x; [|discriminate E]; clear E.

Section Facts.
Variable drv : GL.Driver.

Lemma set_gl_set_gl c c' w : set_gl c (set_gl c' w) = set_gl c w.
Proof. reflexivity. Qed.

Lemma createShader_run src ty w t :
  threeRenderer (renderer w) = Some t ->
  createShader drv src ty w =
    (if GL.compile_status drv ty src then Ret (GL.next_name (gl w))
     else Throw (default "Cannot compile" (GL.shader_info_log drv ty src)),
     set_gl
       (GL.mkContext
          (<[GL.next_name (gl w) :=
               GL.mkShader ty src (GL.compile_status drv ty src)
                 (GL.shader_info_log drv ty src) 0 false]> (GL.shaders (gl w)))
          (GL.programs (gl w)) (S (GL.next_name (gl w)))) w).
Proof.
  intros Ht.
  unfold createShader, bind, the_threeRenderer, gl_call, gl_do, gl_get,
    modify, reads, ret, throw.
  rewrite Ht. cbn.
  unfold GL.getShaderParameter_COMPILE_STATUS, GL.getShaderInfoLog,
    GL.compileShader, GL.shaderSource, GL.createShader. cbn.
  rewrite !alter_insert_eq, !lookup_insert_eq. cbn.
  destruct (GL.compile_status drv ty src); cbn;
    rewrite ?lookup_insert_eq; reflexivity.
Qed.

Lemma gl_set_gl c w : gl (set_gl c w) = c.
Proof. reflexivity. Qed.
Lemma bind_gl_do {B} f (k : unit -> M B) w :
  bind (gl_do f) k w = k tt (set_gl (f (gl w)) w).
Proof. reflexivity. Qed.
Lemma bind_gl_get {A B} (f : GL.Context -> A) (k : A -> M B) w :
  bind (gl_get f) k w = k (f (gl w)) w.
Proof. reflexivity. Qed.

Ltac gl_step :=
  rewrite ?bind_gl_do, ?bind_gl_get, ?set_gl_set_gl, ?gl_set_gl;
  cbn [GL.next_name GL.shaders GL.programs].

Ltac gl_maps :=
  repeat (rewrite ?alter_insert_eq, ?lookup_insert_eq, ?insert_insert_eq,
            ?delete_insert_eq;
          rewrite ?alter_insert_ne, ?lookup_insert_ne, ?delete_insert_ne by lia;
          cbn [GL.sh_type GL.sh_source GL.COMPILE_STATUS GL.sh_infoLog
               GL.sh_attached GL.sh_deleteFlag GL.pr_shaders GL.LINK_STATUS
               GL.pr_infoLog Nat.eqb Nat.pred andb negb fmap option_fmap
               option_map from_option]).

Lemma verify_run vertex fragment w t :
  threeRenderer (renderer w) = Some t ->
  GL.wf (gl w) ->
  exists c,
    verifyShaderProgram drv vertex fragment w =
      (match first_failure drv vertex fragment with
       | Some s => Throw (default (fallback s) (stage_log drv vertex fragment s))
       | None => Ret tt
       end, set_gl c w) /\
    GL.wf c /\
    (first_failure drv vertex fragment = None ->
     GL.shaders c = GL.shaders (gl w) /\ GL.programs c = GL.programs (gl w)) /\
    (first_failure drv vertex fragment <> None ->
     exists p,
       GL.programs c = <[GL.next_name (gl w) := p]> (GL.programs (gl w)) /\
       is_Some (GL.shaders c !! S (GL.next_name (gl w))) /\
       (GL.shaders c !! S (S (GL.next_name (gl w))) = None <->
        first_failure drv vertex fragment = Some VertexCompile)).
Proof.
  intros Ht Hwf.
  assert (Hfresh : forall k, (GL.next_name (gl w) <= k)%nat ->
            GL.shaders (gl w) !! k = None /\ GL.programs (gl w) !! k = None)
    by exact Hwf.
  unfold verifyShaderProgram, first_failure, stage_succeeds, linked_sources,
    wrapped_vertex, wrapped_fragment.
  unfold bind at 1. unfold the_threeRenderer at 1. rewrite Ht.
  unfold bind at 1. unfold gl_call at 1. cbn [GL.createProgram].
  set (n := GL.next_name (gl w)) in *.
  unfold bind at 1.
  erewrite createShader_run by (cbn; exact Ht).
  gl_step. cbn [find negb].
  destruct (GL.compile_status drv GL.VERTEX_SHADER _) eqn:Hv; cbn [negb].
  2:{ eexists; split; [reflexivity|]. split; [|split; [discriminate|]].
      - intros k Hk; cbn in *.
        rewrite !lookup_insert_ne by lia. apply Hfresh. lia.
      - intros _. eexists. cbn. split; [reflexivity|].
        rewrite lookup_insert_eq. split; [eauto|].
        rewrite lookup_insert_ne by lia.
        split; [reflexivity|intros _; apply Hfresh; lia]. }
  unfold bind at 1.
  erewrite createShader_run by (cbn; exact Ht).
  gl_step.
  destruct (GL.compile_status drv GL.FRAGMENT_SHADER _) eqn:Hf; cbn [negb].
  2:{ eexists; split; [reflexivity|]. split; [|split; [discriminate|]].
      - intros k Hk; cbn in *.
        rewrite !lookup_insert_ne by lia. apply Hfresh. lia.
      - intros _. eexists. cbn. split; [reflexivity|].
        rewrite lookup_insert_ne, !lookup_insert_eq by lia. split; [eauto|].
        split; discriminate. }
  gl_step.
  unfold GL.attachShader, GL.deleteShader, GL.linkProgram, GL.attached_sources,
    GL.all_compiled, GL.getShaderParameter_COMPILE_STATUS,
    GL.getProgramParameter_LINK_STATUS.
  repeat (progress (cbn; gl_maps)).
  destruct (GL.link_status drv _) eqn:Hl; cbn [negb].
  2:{ gl_step. unfold GL.getProgramInfoLog. cbn. gl_maps.
      eexists; split; [reflexivity|]. split; [|split; [discriminate|]].
      - intros k Hk; cbn in *.
        rewrite !lookup_insert_ne by lia. apply Hfresh. lia.
      - intros _. eexists. cbn. split; [reflexivity|].
        rewrite lookup_insert_ne, !lookup_insert_eq by lia. split; [eauto|].
        split; discriminate. }
  unfold gl_do, modify. gl_step.
  unfold GL.deleteProgram, GL.detach.
  repeat (progress (cbn; gl_maps)).
  destruct (Hfresh n) as [_ Hp]; [lia|].
  destruct (Hfresh (S n)) as [Hs1 _]; [lia|].
  destruct (Hfresh (S (S n))) as [Hs2 _]; [lia|].
  rewrite (delete_id _ (S (S n))), (delete_id _ (S n)), (delete_id _ n) by assumption.
  eexists; split; [reflexivity|].
  split; [|split; [intros _; split; reflexivity|intros H; contradiction]].
  intros k Hk; cbn in *. apply Hfresh. lia.
Qed.

Lemma switchScene_same name w s :
  scene (renderer w) = Some s -> scene_name s = name ->
  switchScene name w = (Ret tt, w).
Proof.
  intros Hs Hn. unfold switchScene, bind, reads, when.
  rewrite Hs, Hn, String.eqb_refl. reflexivity.
Qed.

Lemma diagnostic_first_failure fragment :
  diagnostic drv fragment =
    match first_failure drv Sources.vertexShader fragment with
    | Some s => Some (default (fallback s)
                        (stage_log drv Sources.vertexShader fragment s))
    | None => None
    end.
Proof. unfold diagnostic. destruct first_failure; reflexivity. Qed.

Lemma effect_failure v w msg :
  Pre v w ->
  diagnostic drv (fragmentShader (app w)) = Some msg ->
  exists c,
    effect drv v w = (Ret tt, set_app (set_errors msg (app w)) (set_gl c w)) /\
    GL.wf c.
Proof.
  intros [[t Ht] (s & Hs & Hn & _) Hwf _ _ _] Hd.
  rewrite diagnostic_first_failure in Hd.
  unfold effect.
  unfold bind at 1. unfold reads at 1.
  unfold bind at 1. rewrite (switchScene_same _ _ _ Hs Hn).
  unfold bind at 1. unfold getResolution at 1, reads at 1.
  unfold try_catch. unfold bind at 1.
  destruct (verify_run Sources.vertexShader (fragmentShader (app w)) w t Ht Hwf)
    as (c & Hv & Hc & _ & _).
  rewrite Hv.
  destruct first_failure; [|discriminate].
  injection Hd as <-.
  exists c. split; [reflexivity|exact Hc].
Qed.

Lemma effect_success v w :
  Pre v w ->
  diagnostic drv (fragmentShader (app w)) = None ->
  exists c,
    effect drv v w = (Ret tt, compiled v c w) /\
    GL.wf c /\ GL.shaders c = GL.shaders (gl w) /\
    GL.programs c = GL.programs (gl w).
Proof.
  intros [[t Ht] (s & Hs & Hn & Hq) Hwf _ _ _] Hd.
  rewrite diagnostic_first_failure in Hd.
  unfold effect.
  unfold bind at 1. unfold reads at 1.
  unfold bind at 1. rewrite (switchScene_same _ _ _ Hs Hn).
  unfold bind at 1. unfold getResolution at 1, reads at 1.
  unfold try_catch. unfold bind at 1.
  destruct (verify_run Sources.vertexShader (fragmentShader (app w)) w t Ht Hwf)
    as (c & Hv & Hc & Hsame & _).
  rewrite Hv.
  destruct first_failure; [discriminate|].
  destruct (Hsame eq_refl) as [Hsh Hpr].
  exists c. split; [|auto].
  unfold compiled. rewrite Hs.
  clear Hv Hsame Hsh Hpr Hwf Hc Hd.
  destruct w as [nw iw ih af cls unc g nid mats lg r a].
  destruct r as [tr siw sih sc cam en clk].
  cbn in Ht, Hs. subst tr sc.
  destruct s as [sn cs od]. cbn in Hn, Hq. subst sn.
  destruct v; cbn in Hq.
  - destruct Hq as [-> | (i & gq & m & ->)].
    + reflexivity.
    + exec. know_true (Nat.eqb i i) (Nat.eqb_refl i). exec.
      rewrite <- !app_assoc. reflexivity.
  - exec. rewrite <- !app_assoc. reflexivity.
Qed.

Lemma clock_ok_getDelta t c :
  clock_ok c -> clock_ok (THREE.Clock_getDelta t c).2.
Proof.
  intros [Ha Hr]. unfold clock_ok, THREE.Clock_getDelta. rewrite Ha.
  destruct (THREE.running c) eqn:Hrun;
    cbn [andb negb snd THREE.Clock_start THREE.autoStart THREE.running
         THREE.elapsedTime THREE.oldTime THREE.startTime]; split; auto; intros _.
  - rewrite (Hr eq_refl). field.
  - field.
Qed.

Lemma compiled_Inv v c w :
  Pre v w -> GL.wf c ->
  diagnostic drv (fragmentShader (app w)) = None ->
  Inv drv v (compiled v c w).
Proof.
  intros [Ht (s & Hs & Hn & Hq) _ Hl Hu Hk] Hc Hd.
  unfold compiled. rewrite Hs.
  split.
  - split; cbn; try assumption.
    + eexists; split; [reflexivity|]. split; [exact Hn|].
      destruct v; cbn; [right; eauto|exact I].
    + apply clock_ok_getDelta, Hk.
  - cbn. rewrite Hd. reflexivity.
  - cbn. eexists; split; [reflexivity|]. rewrite Hd. cbn.
    exists (fresh_closure w). rewrite length_app, last_snoc. cbn.
    split; [f_equal; lia|]. split; [reflexivity|].
    rewrite lookup_insert_eq. eauto.
Qed.

Lemma failed_Inv v c w s msg :
  Pre v w -> GL.wf c ->
  scene (renderer w) = Some s -> onDraw s = None ->
  diagnostic drv (fragmentShader (app w)) = Some msg ->
  Inv drv v (set_app (set_errors msg (app w)) (set_gl c w)).
Proof.
  intros [Ht Hs _ Hl Hu Hk] Hc Hsc Ho Hd.
  split.
  - split; cbn; assumption.
  - cbn. rewrite Hd. reflexivity.
  - cbn. exists s. rewrite Hd. auto.
Qed.

(** An effect that starts without a draw hook ends in a page that satisfies
    the invariant. *)
Lemma effect_Inv v w s :
  Pre v w -> scene (renderer w) = Some s -> onDraw s = None ->
  Inv drv v (handle (effect drv v) w).
Proof.
  intros HP Hs Ho. unfold handle.
  destruct (diagnostic drv (fragmentShader (app w))) as [msg|] eqn:Hd.
  - destruct (effect_failure v w msg HP Hd) as (c & -> & Hc).
    eapply failed_Inv; eauto.
  - destruct (effect_success v w HP Hd) as (c & -> & Hc & _).
    apply compiled_Inv; auto.
Qed.

Lemma cleanup_run w s :
  scene (renderer w) = Some s ->
  cleanup w =
    (Ret tt, set_renderer (set_scene (Some (set_onDraw None s)) (renderer w)) w).
Proof.
  intros Hs. unfold cleanup, set_scene_onDraw, bind, the_scene. rewrite Hs.
  reflexivity.
Qed.

Lemma cleanup_Pre v w s :
  Pre v w -> scene (renderer w) = Some s ->
  Pre v (set_renderer (set_scene (Some (set_onDraw None s)) (renderer w)) w).
Proof.
  intros [Ht (s' & Hs' & Hn & Hq) Hg Hl Hu Hk] Hs.
  rewrite Hs in Hs'. injection Hs' as <-.
  split; cbn; try assumption.
  exists (set_onDraw None s). auto.
Qed.

Lemma setFragmentShader_Inv v value w :
  Inv drv v w -> Inv drv v (setFragmentShader drv v value w).
Proof.
  intros HI. unfold setFragmentShader.
  destruct (String.eqb value (fragmentShader (app w))); [exact HI|].
  destruct HI as [HP _ _].
  assert (HP' : Pre v (set_app (set_fragmentShader value (app w)) w)).
  { destruct HP; split; assumption. }
  destruct (pre_scene _ _ HP') as (s & Hs & _).
  unfold handle at 2. rewrite (cleanup_run _ s Hs).
  eapply effect_Inv.
  - apply cleanup_Pre; eauto.
  - reflexivity.
  - reflexivity.
Qed.


(** Pointer events reach every closure and nothing else. *)
Lemma closures_Inv v w (f : Closure -> Closure) :
  (forall c, c_mat (f c) = c_mat c) ->
  Inv drv v w -> Inv drv v (set_closures (map f (closures w)) w).
Proof.
  intros Hf [HP He (s & Hs & Hh)].
  split.
  - destruct HP; split; assumption.
  - exact He.
  - exists s. split; [exact Hs|]. cbn.
    destruct (diagnostic drv (fragmentShader (app w))); [exact Hh|].
    destruct Hh as (c & Ho & Hl & Hm).
    exists (f c). rewrite length_map. split; [exact Ho|].
    change (map f (closures w)) with (f <$> closures w).
    rewrite fmap_last, Hl, Hf. auto.
Qed.


Lemma renderLoop_run time w t s :
  threeRenderer (renderer w) = Some t -> scene (renderer w) = Some s ->
  animationFrame w = false ->
  renderLoop time w = (Ret tt, after_frame w).
Proof.
  intros Ht Hs Hf.
  destruct w as [nw iw ih af cls unc g nid mats lg r a].
  destruct r as [tr' siw sih sc cam en clk].
  cbn in Ht, Hs, Hf. subst tr' sc af.
  destruct s as [sn cs [h|]].
  - unfold renderLoop, after_frame, hooked, drawn, resized, active_closure. exec.
    set (b1 := Qeq_bool siw iw). set (b2 := Qeq_bool sih ih).
    clearbody b1 b2.
    destruct b1, b2; exec; set (o := cls !! h); clearbody o;
      destruct o, en; reflexivity.
  - unfold renderLoop, after_frame, hooked, drawn, resized, active_closure. exec.
    set (b1 := Qeq_bool siw iw). set (b2 := Qeq_bool sih ih).
    clearbody b1 b2.
    destruct b1, b2, en; reflexivity.
Qed.
Lemma onAnimationFrame_run v w :
  Pre v w ->
  onAnimationFrame w = after_frame (set_animationFrame false w).
Proof.
  intros [[t Ht] (s & Hs & _) _ [Hl _] _ _].
  unfold onAnimationFrame, handle. rewrite Hl.
  rewrite (renderLoop_run _ _ t s); auto.
Qed.

Lemma frame_run v w :
  Inv drv v w ->
  let w' := onAnimationFrame w in
  let t := THREE.Clock_getElapsedTime (now w) (clock (renderer w)) in
  Inv drv v w' /\
  closures w' = closures w /\ scene (renderer w') = scene (renderer w) /\
  app w' = app w /\ gl w' = gl w /\
  (exists es s, scene (renderer w) = Some s /\
     log w' = (log w ++ es ++ [Render "quad" (map THREE.id (children s))])%list) /\
  match active_closure w with
  | Some c =>
      clock (renderer w') = t.2 /\
      materials w' =
        alter (set_uniforms (hook_uniforms t.1 c)) (c_mat c) (materials w)
  | None => clock (renderer w') = clock (renderer w) /\
            materials w' = materials w
  end.
Proof.
  intros [HP He (s & Hs & Hh)].
  rewrite (onAnimationFrame_run v w HP).
  destruct HP as [[tr Ht] (s' & Hs' & Hn & Hq) Hg [Hl1 Hl2] Hu Hk].
  rewrite Hs in Hs'. injection Hs' as <-.
  unfold after_frame, hooked, drawn, resized, active_closure.
  destruct w as [nw iw ih af cls unc g nid mats lg r a].
  destruct r as [tr' siw sih sc cam en clk].
  cbn in Ht, Hs, Hl1, Hl2, Hu, Hk, Hg, He, Hh |- *. subst tr' sc en af unc.
  destruct s as [sn cs od]. cbn in Hn, Hq, Hh |- *. subst sn.
  destruct (diagnostic drv (fragmentShader a)) as [msg|] eqn:Hd.
  - subst od.
    destruct (negb (Qeq_bool siw iw) || negb (Qeq_bool sih ih)); cbn.
    + split; [|repeat split; try reflexivity].
      * split; [split; cbn; eauto| cbn; rewrite Hd; exact He | cbn; rewrite Hd; eauto].
      * eexists [_], _. split; [reflexivity|]. rewrite <- app_assoc. reflexivity.
    + split; [|repeat split; try reflexivity].
      * split; [split; cbn; eauto| cbn; rewrite Hd; exact He | cbn; rewrite Hd; eauto].
      * eexists [], _. split; reflexivity.
  - destruct Hh as (c & -> & Hlast & Hm).
    rewrite last_lookup in Hlast.
    destruct (negb (Qeq_bool siw iw) || negb (Qeq_bool sih ih)); cbn;
      rewrite Hlast; cbn.
    + split; [|repeat split; try reflexivity].
      * split; [split; cbn; eauto using clock_ok_getDelta
               | cbn; rewrite Hd; exact He |].
        cbn. rewrite Hd. eexists; split; [reflexivity|].
        exists c. rewrite <- last_lookup in Hlast.
        repeat split; auto. rewrite lookup_alter_eq.
        destruct Hm as [m ->]. cbn. eauto.
      * eexists [_], _. split; [reflexivity|]. rewrite <- app_assoc. reflexivity.
    + split; [|repeat split; try reflexivity].
      * split; [split; cbn; eauto using clock_ok_getDelta
               | cbn; rewrite Hd; exact He |].
        cbn. rewrite Hd. eexists; split; [reflexivity|].
        exists c. rewrite <- last_lookup in Hlast.
        repeat split; auto. rewrite lookup_alter_eq.
        destruct Hm as [m ->]. cbn. eauto.
      * eexists [], _. split; reflexivity.
Qed.

Lemma effect_switch v w w1 :
  switchScene "quad" w = (Ret tt, w1) ->
  switchScene "quad" w1 = (Ret tt, w1) ->
  app w1 = app w ->
  effect drv v w = effect drv v w1.
Proof.
  intros H1 H2 H3. unfold effect.
  unfold bind at 1. unfold reads at 1.
  unfold bind at 1. rewrite H1.
  symmetry.
  unfold bind at 1. unfold reads at 1.
  unfold bind at 1. rewrite H2, H3. reflexivity.
Qed.

Lemma wf_empty : GL.wf GL.empty_context.
Proof. intros n _. split; apply lookup_empty. Qed.

Lemma clock_ok_new : clock_ok THREE.Clock_new.
Proof. split; [reflexivity|discriminate]. Qed.

Lemma rerun_Inv v w :
  Inv drv v w -> Inv drv v (handle (effect drv v) (handle cleanup w)).
Proof.
  intros [HP _ _].
  destruct (pre_scene _ _ HP) as (s & Hs & _).
  unfold handle at 2. rewrite (cleanup_run _ s Hs).
  eapply effect_Inv; [apply cleanup_Pre; eauto|reflexivity..].
Qed.

Lemma main_Inv v development t wd ht :
  Inv drv v (main drv v development (page t wd ht)).
Proof.
  unfold main, mount.
  set (w0 := handle enable (handle Renderer_new (page t wd ht))).
  set (w1 := match v with
             | NamedQuad => _
             | UnnamedQuad => _
             end).
  assert (Hfirst : Inv drv v (handle (effect drv v) w1)).
  { assert (exists w2, switchScene "quad" w1 = (Ret tt, w2) /\ Pre v w2 /\
              app w2 = app w1 /\
              exists s, scene (renderer w2) = Some s /\ onDraw s = None)
      as (w2 & Hsw & HP & Ha & s & Hs & Ho).
    { subst w1 w0. unfold page.
      destruct v; exec; (eexists; split; [reflexivity|]);
        (split; [|split; [reflexivity|eauto]]);
        (split; cbn; eauto using wf_empty, clock_ok_new). }
    unfold handle.
    rewrite (effect_switch v w1 w2 Hsw); [| |exact Ha].
    - apply (effect_Inv v w2 s HP Hs Ho).
    - destruct (pre_scene _ _ HP) as (s' & Hs' & Hn & _).
      apply (switchScene_same _ _ _ Hs' Hn). }
  destruct development; [|exact Hfirst].
  apply rerun_Inv, Hfirst.
Qed.

Lemma step_Inv v e w : Inv drv v w -> Inv drv v (step drv v e w).
Proof.
  intros HI. destruct e; cbn [step].
  - destruct HI as [[] ? ?]; split; [split|..]; assumption.
  - destruct HI as [[] ? ?]; split; [split|..]; assumption.
  - apply closures_Inv; [reflexivity|exact HI].
  - apply closures_Inv; [reflexivity|exact HI].
  - apply frame_run, HI.
  - destruct (showEditors (app w)); [|exact HI].
    destruct HI as [[] ? ?]; split; [split|..]; assumption.
  - destruct HI as [[] ? ?]; split; [split|..]; assumption.
  - destruct (showEditors (app w)); [|exact HI].
    apply setFragmentShader_Inv, HI.
Qed.

Lemma run_Inv v es w : Inv drv v w -> Inv drv v (run drv v es w).
Proof.
  revert w. induction es as [|e es IH]; intros w HI; [exact HI|].
  cbn. apply IH, step_Inv, HI.
Qed.

Lemma reachable_Inv v w : reachable drv v w -> Inv drv v w.
Proof.
  intros (development & t & wd & ht & es & ->).
  apply run_Inv, main_Inv.
Qed.

End Facts.

Lemma constructed_wf : GL.wf (gl constructed).
Proof. apply wf_empty. Qed.

Lemma first_failure_None drv vertex fragment :
  first_failure drv vertex fragment = None <->
  forall s, stage_succeeds drv vertex fragment s = true.
Proof.
  unfold first_failure. cbn [find].
  split.
  - intros H s.
    destruct (stage_succeeds drv vertex fragment VertexCompile) eqn:E1;
      [|discriminate].
    destruct (stage_succeeds drv vertex fragment FragmentCompile) eqn:E2;
      [|discriminate].
    destruct (stage_succeeds drv vertex fragment ProgramLink) eqn:E3;
      [|discriminate].
    destruct s; assumption.
  - intros H. rewrite !H. reflexivity.
Qed.

(** C7. [verifyShaderProgram] raises exactly when one of the steps fails.
    The steps are taken in the order vertex compile, fragment compile,
    program link, and the message raised is the info log that the driver
    reports for the first step that fails (when it reports none, the fixed
    text of that step); when every step succeeds the call returns without a
    value. *)
Theorem verifyShaderProgram_raises_log_of_first_failure
    drv vertex fragment w t :
  threeRenderer (renderer w) = Some t ->
  GL.wf (gl w) ->
  let outcome := (verifyShaderProgram drv vertex fragment w).1 in
  ((exists message, outcome = Throw message) <->
   (exists s, stage_succeeds drv vertex fragment s = false)) /\
  match first_failure drv vertex fragment with
  | Some s =>
      (forall l, stage_log drv vertex fragment s = Some l -> outcome = Throw l) /\
      (stage_log drv vertex fragment s = None -> outcome = Throw (fallback s))
  | None => outcome = Ret tt
  end.
Proof.
  intros Ht Hwf outcome.
  destruct (verify_run drv vertex fragment w t Ht Hwf) as (c & Hv & _ & _ & _).
  subst outcome. rewrite Hv. cbn [fst].
  pose proof (first_failure_None drv vertex fragment) as HN.
  destruct (first_failure drv vertex fragment) as [s|] eqn:Hs.
  - split.
    + split; [intros _|eauto].
      exists s. unfold first_failure in Hs.
      apply find_some in Hs as [_ Hs]. apply negb_true_iff, Hs.
    + split.
      * intros l ->. reflexivity.
      * intros ->. reflexivity.
  - split; [|reflexivity].
    split.
    + intros [m Hm]. discriminate.
    + intros [s Hs']. rewrite (proj1 HN eq_refl s) in Hs'. discriminate.
Qed.

Lemma verifyShaderProgram_raises_log_of_first_failure_witness :
  threeRenderer (renderer constructed) =
    Some (mkWebGLRenderer (800%Q, 600%Q) "srgb") /\
  GL.wf (gl constructed) /\
  (verifyShaderProgram rejecting_error_directive Sources.vertexShader "#error"
     constructed).1 = Throw "ERROR: 0:1: '#error'".
Proof.
  split; [reflexivity|]. split; [exact constructed_wf|].
  pose proof (verifyShaderProgram_raises_log_of_first_failure
                rejecting_error_directive Sources.vertexShader "#error"
                constructed _ eq_refl constructed_wf) as H.
  vm_compute in H. vm_compute. exact (proj1 (proj2 H) _ eq_refl).
Defined.

(** X2. When every step succeeds, the objects of the context are those it had
    before the call: both shaders and the program are gone. *)
Lemma verifyShaderProgram_deletes_on_success drv vertex fragment w t :
  threeRenderer (renderer w) = Some t ->
  GL.wf (gl w) ->
  first_failure drv vertex fragment = None ->
  let w' := (verifyShaderProgram drv vertex fragment w).2 in
  GL.shaders (gl w') = GL.shaders (gl w) /\
  GL.programs (gl w') = GL.programs (gl w).
Proof.
  intros Ht Hwf Hok.
  destruct (verify_run drv vertex fragment w t Ht Hwf) as (c & Hv & _ & Hsame & _).
  cbv zeta. rewrite Hv. exact (Hsame Hok).
Qed.

(** X3. When a step fails, on any driver, the call raises with the program
    object it created still in the context, together with the vertex shader;
    the fragment shader is there too unless the vertex shader did not
    compile, in which case it was never created. *)
Lemma verifyShaderProgram_leaves_objects_on_failure drv vertex fragment w t s :
  threeRenderer (renderer w) = Some t ->
  GL.wf (gl w) ->
  first_failure drv vertex fragment = Some s ->
  let n := GL.next_name (gl w) in
  let w' := (verifyShaderProgram drv vertex fragment w).2 in
  GL.programs (gl w) !! n = None /\
  (exists p, GL.programs (gl w') = <[n := p]> (GL.programs (gl w))) /\
  is_Some (GL.shaders (gl w') !! S n) /\
  (GL.shaders (gl w') !! S (S n) = None <-> s = VertexCompile).
Proof.
  intros Ht Hwf Hs.
  destruct (verify_run drv vertex fragment w t Ht Hwf) as (c & Hv & _ & _ & Hk).
  cbv zeta. rewrite Hv. cbn [snd]. rewrite gl_set_gl.
  destruct Hk as (p & Hp & Hsh & Hfs); [rewrite Hs; discriminate|].
  split; [apply Hwf; lia|]. split; [eauto|]. split; [exact Hsh|].
  rewrite Hfs, Hs. split; [intros [= ->]; reflexivity|intros ->; reflexivity].
Qed.

(** C3 (fails on the code). A fragment source that does not compile: the call
    raises, and the program object, the vertex shader and the fragment shader
    it created are still in the context, which held no object before. *)
Theorem verifyShaderProgram_leaks_when_it_raises :
  let call := verifyShaderProgram rejecting_error_directive
                Sources.vertexShader "#error" constructed in
  call.1 = Throw "ERROR: 0:1: '#error'" /\
  map_to_list (GL.shaders (gl constructed)) = [] /\
  map_to_list (GL.programs (gl constructed)) = [] /\
  fst <$> map_to_list (GL.programs (gl call.2)) = [0%nat] /\
  (fun p => (p.1, GL.sh_type p.2, GL.sh_deleteFlag p.2))
    <$> map_to_list (GL.shaders (gl call.2)) =
    [(2%nat, GL.FRAGMENT_SHADER, false); (1%nat, GL.VERTEX_SHADER, false)].
Proof. vm_compute. repeat split; reflexivity. Qed.

(** A link failure behaves alike: the two shaders are only flagged, and stay
    with the program that is never deleted. *)

Lemma verifyShaderProgram_leaks_when_linking_fails :
  let call := verifyShaderProgram never_linking Sources.vertexShader
                (initFragmentShader NamedQuad) constructed in
  call.1 = Throw "link failed" /\
  (fun p => (p.1, GL.pr_shaders p.2))
    <$> map_to_list (GL.programs (gl call.2)) = [(0%nat, [1%nat; 2%nat])] /\
  (fun p => (p.1, GL.sh_deleteFlag p.2))
    <$> map_to_list (GL.shaders (gl call.2)) = [(2%nat, true); (1%nat, true)].
Proof. vm_compute. repeat split; reflexivity. Qed.

Lemma switchScene_never_raises name w :
  exists w', switchScene name w = (Ret tt, w').
Proof.
  destruct w as [nw iw ih af cls unc g nid mats lg r a].
  destruct r as [tr siw sih sc cam en clk].
  unfold switchScene. unfold bind at 1. unfold reads at 1.
  cbn [renderer scene threeRenderer].
  destruct sc as [s|]; [destruct (String.eqb (scene_name s) name)|];
    destruct tr; eexists; reflexivity.
Qed.

Lemma dispose_child_every_material o :
  dispose_child o = geometry_and_every_material o.
Proof.
  unfold dispose_child, geometry_and_every_material.
  destruct (THREE.kind o) as [g [m|ms]|]; reflexivity.
Qed.

Lemma disposals_every_material cs :
  flat_map dispose_child cs = flat_map geometry_and_every_material cs.
Proof.
  induction cs as [|o cs IH]; [reflexivity|].
  cbn [flat_map]. rewrite IH, dispose_child_every_material. reflexivity.
Qed.

(** C5. On a constructed render host, [switchScene name] changes nothing
    when the active scene has that name. Otherwise it returns normally after
    it has disposed, child by child, the geometry of each mesh of the
    outgoing scene and then its material, or each material of its array of
    materials, and after that the render lists; it has installed a scene of
    that name with no child and no draw hook, and has made a new camera. *)
Theorem switchScene_disposes_and_installs name w t s :
  threeRenderer (renderer w) = Some t ->
  scene (renderer w) = Some s ->
  (scene_name s = name -> switchScene name w = (Ret tt, w)) /\
  (scene_name s <> name ->
   exists w',
     switchScene name w = (Ret tt, w') /\
     scene (renderer w') = Some (mkScene name [] None) /\
     camera (renderer w') =
       Some (THREE.mkOrthographicCamera (next_id w) (-1) 1 1 (-1) 0.1 10) /\
     log w' =
       (log w ++ flat_map geometry_and_every_material (children s)
              ++ [RenderListsDispose])%list /\
     (forall o g m,
        In o (children s) ->
        THREE.kind o = THREE.Mesh g (THREE.SingleMaterial m) ->
        In (GeometryDispose g) (log w') /\ In (MaterialDispose m) (log w')) /\
     (forall o g ms,
        In o (children s) ->
        THREE.kind o = THREE.Mesh g (THREE.MaterialArray ms) ->
        In (GeometryDispose g) (log w') /\
        forall m, In m ms -> In (MaterialDispose m) (log w')) /\
     materials w' = materials w /\ closures w' = closures w /\
     app w' = app w /\ gl w' = gl w /\
     clock (renderer w') = clock (renderer w) /\
     enabled (renderer w') = enabled (renderer w) /\
     animationFrame w' = animationFrame w).
Proof.
  intros Ht Hs. split.
  - intros Hn. exact (switchScene_same name w s Hs Hn).
  - intros Hn. apply String.eqb_neq in Hn.
    destruct w as [nw iw ih af cls unc g nid mats lg r a].
    destruct r as [tr siw sih sc cam en clk].
    cbn in Ht, Hs. subst tr sc.
    unfold switchScene. unfold bind at 1. unfold reads at 1.
    cbn [renderer scene threeRenderer]. rewrite Hn. cbn [negb when].
    eexists. split; [reflexivity|]. cbn.
    rewrite disposals_every_material.
    assert (Hin : forall o e,
              In o (children s) -> In e (geometry_and_every_material o) ->
              In e ((lg ++ flat_map geometry_and_every_material (children s))
                    ++ [RenderListsDispose])%list).
    { intros o e Ho He. apply in_or_app. left. apply in_or_app. right.
      apply in_flat_map. exists o. split; assumption. }
    split; [reflexivity|]. split; [reflexivity|].
    split; [rewrite <- app_assoc; reflexivity|].
    split; [|split; [|repeat split]].
    + intros o go m Ho Hk.
      split; apply (Hin o _ Ho); unfold geometry_and_every_material;
        rewrite Hk; [left|right; left]; reflexivity.
    + intros o go ms Ho Hk. split.
      * apply (Hin o _ Ho). unfold geometry_and_every_material.
        rewrite Hk. left. reflexivity.
      * intros m Hm. apply (Hin o _ Ho). unfold geometry_and_every_material.
        rewrite Hk. right. apply in_map, Hm.
Qed.

Lemma switchScene_disposes_and_installs_witness :
  let s := mkScene "stage"
             [THREE.mkObject3D 7 "a"
                (THREE.Mesh 2 (THREE.MaterialArray [4%nat; 5%nat])) None;
              THREE.mkObject3D 8 "" THREE.PlainObject None;
              THREE.mkObject3D 9 "b"
                (THREE.Mesh 3 (THREE.SingleMaterial 6)) None]
             None in
  let w := set_renderer (set_scene (Some s) (renderer constructed))
             constructed in
  exists w',
    switchScene "other" w = (Ret tt, w') /\
    log w' = (log w ++ [GeometryDispose 2; MaterialDispose 4; MaterialDispose 5;
                        GeometryDispose 3; MaterialDispose 6;
                        RenderListsDispose])%list /\
    scene (renderer w') = Some (mkScene "other" [] None).
Proof.
  intros s w.
  destruct (switchScene_disposes_and_installs "other" w
              (mkWebGLRenderer (800%Q, 600%Q) "srgb") s)
    as [_ H].
  - vm_compute. reflexivity.
  - reflexivity.
  - destruct H as (w' & H1 & H2 & _ & H4 & _).
    + cbn. discriminate.
    + exists w'. split; [exact H1|]. split; [exact H4|exact H2].
Defined.

Section Compile.
Variable drv : GL.Driver.
Variable v : Variant.


Lemma setFragmentShader_run value w s :
  Inv drv v w ->
  scene (renderer w) = Some s ->
  value <> fragmentShader (app w) ->
  exists c,
    GL.wf c /\
    setFragmentShader drv v value w =
      match diagnostic drv value with
      | Some msg =>
          set_app (set_errors msg (app (committing value s w)))
            (set_gl c (committing value s w))
      | None => compiled v c (committing value s w)
      end.
Proof.
  intros [HP _ _] Hs Hne.
  unfold setFragmentShader.
  apply String.eqb_neq in Hne. rewrite Hne.
  assert (HP' : Pre v (set_app (set_fragmentShader value (app w)) w)).
  { destruct HP; split; assumption. }
  assert (Hcl : handle cleanup (set_app (set_fragmentShader value (app w)) w)
                = committing value s w).
  { unfold handle.
    rewrite (cleanup_run (set_app (set_fragmentShader value (app w)) w) s Hs).
    reflexivity. }
  rewrite Hcl.
  assert (HP'' : Pre v (committing value s w))
    by exact (cleanup_Pre v _ s HP' Hs).
  unfold handle.
  destruct (diagnostic drv value) as [msg|] eqn:Hd.
  - destruct (effect_failure drv v (committing value s w) msg HP'' Hd)
      as (c & -> & Hc).
    exists c. split; [exact Hc|reflexivity].
  - destruct (effect_success drv v (committing value s w) HP'' Hd)
      as (c & -> & Hc & _).
    exists c. split; [exact Hc|reflexivity].
Qed.

End Compile.

(** C4. A compile action on a reachable page commits the draft, whether or
    not it is valid; when its validation raises, the message raised becomes
    the displayed error, and when it succeeds the displayed error is empty. *)
Theorem compile_commits_draft_and_records_outcome drv v w :
  reachable drv v w ->
  let draft := fragmentShaderTemp (app w) in
  let w' := onClickCompile drv v w in
  fragmentShader (app w') = draft /\
  match (verifyShaderProgram drv Sources.vertexShader draft w).1 with
  | Throw message => errors (app w') = message
  | Ret _ => errors (app w') = ""
  end.
Proof.
  intros Hr draft w'.
  pose proof (reachable_Inv drv v w Hr) as HI.
  assert (HI' : Inv drv v w') by (apply setFragmentShader_Inv, HI).
  assert (Hc : fragmentShader (app w') = draft).
  { subst w'. unfold onClickCompile. fold draft.
    destruct (decide (draft = fragmentShader (app w))) as [He|Hne].
    - unfold setFragmentShader. rewrite He at 1. rewrite String.eqb_refl.
      symmetry. exact He.
    - destruct (pre_scene _ _ (inv_pre _ _ _ HI)) as (s & Hs & _).
      destruct (setFragmentShader_run drv v draft w s HI Hs Hne) as (c & _ & ->).
      destruct (diagnostic drv draft); [reflexivity|].
      unfold compiled, committing. cbn. reflexivity. }
  split; [exact Hc|].
  destruct (inv_pre _ _ _ HI) as [[t Ht] _ Hwf _ _ _].
  destruct (verify_run drv Sources.vertexShader draft w t Ht Hwf)
    as (c & -> & _ & _ & _).
  cbn [fst].
  rewrite (inv_errors _ _ _ HI'), Hc, diagnostic_first_failure.
  destruct (first_failure drv Sources.vertexShader draft); reflexivity.
Qed.

Lemma reachable_run drv v development t wd ht es :
  reachable drv v (run drv v es (main drv v development (page t wd ht))).
Proof. exists development, t, wd, ht, es. reflexivity. Qed.

Lemma compile_commits_draft_and_records_outcome_witness :
  let w := run rejecting_error_directive NamedQuad [EditorChange "#error"]
             (main rejecting_error_directive NamedQuad true (page 0 800 600)) in
  let w' := onClickCompile rejecting_error_directive NamedQuad w in
  reachable rejecting_error_directive NamedQuad w /\
  fragmentShader (app w') = "#error" /\
  errors (app w') = "ERROR: 0:1: '#error'".
Proof.
  intros w w'.
  assert (Hr : reachable rejecting_error_directive NamedQuad w)
    by apply reachable_run.
  split; [exact Hr|].
  pose proof (compile_commits_draft_and_records_outcome
                rejecting_error_directive NamedQuad w Hr) as H.
  vm_compute in H. vm_compute. exact H.
Defined.

(** The outcome of a validation on a reachable page is its diagnostic. *)
Lemma verify_outcome drv v w fragment :
  Inv drv v w ->
  (verifyShaderProgram drv Sources.vertexShader fragment w).1 =
    match diagnostic drv fragment with
    | Some message => Throw message
    | None => Ret tt
    end.
Proof.
  intros HI.
  destruct (inv_pre _ _ _ HI) as [[t Ht] _ Hwf _ _ _].
  destruct (verify_run drv Sources.vertexShader fragment w t Ht Hwf)
    as (c & -> & _ & _ & _).
  rewrite diagnostic_first_failure.
  destruct (first_failure drv Sources.vertexShader fragment); reflexivity.
Qed.

Lemma verify_Throw drv v w fragment message :
  Inv drv v w ->
  (verifyShaderProgram drv Sources.vertexShader fragment w).1 = Throw message ->
  diagnostic drv fragment = Some message.
Proof.
  intros HI. rewrite (verify_outcome drv v w fragment HI).
  destruct (diagnostic drv fragment); [|discriminate].
  intros [= ->]. reflexivity.
Qed.

Lemma verify_Ret drv v w fragment :
  Inv drv v w ->
  (verifyShaderProgram drv Sources.vertexShader fragment w).1 = Ret tt ->
  diagnostic drv fragment = None.
Proof.
  intros HI. rewrite (verify_outcome drv v w fragment HI).
  destruct (diagnostic drv fragment); [discriminate|reflexivity].
Qed.

(** C2 (amended). A compile action whose draft fails validation, on a
    reachable page: no material, drawable or listener is made, the scene
    keeps its drawables, nothing is disposed, added or removed, the camera
    and the clock are untouched, the render loop stays scheduled with no
    uncaught error and its next frame draws the same drawables; the message
    is recorded and the draft is committed. *)
Theorem failed_compile_keeps_the_drawable drv v w message :
  reachable drv v w ->
  (verifyShaderProgram drv Sources.vertexShader (fragmentShaderTemp (app w)) w).1
    = Throw message ->
  let w' := onClickCompile drv v w in
  (materials w' = materials w /\ next_id w' = next_id w /\
   closures w' = closures w) /\
  (exists s s', scene (renderer w) = Some s /\ scene (renderer w') = Some s' /\
                scene_name s' = scene_name s /\ children s' = children s) /\
  log w' = log w /\
  (camera (renderer w') = camera (renderer w) /\
   clock (renderer w') = clock (renderer w)) /\
  (animationFrame w' = true /\ enabled (renderer w') = true /\
   uncaught w' = []) /\
  (exists es s, scene (renderer w) = Some s /\
     log (onAnimationFrame w') =
       (log w ++ es ++ [Render "quad" (map THREE.id (children s))])%list /\
     animationFrame (onAnimationFrame w') = true) /\
  errors (app w') = message /\
  fragmentShader (app w') = fragmentShaderTemp (app w).
Proof.
  intros Hr Hv w'.
  pose proof (reachable_Inv drv v w Hr) as HI.
  apply (verify_Throw drv v w _ _ HI) in Hv.
  assert (HI' : Inv drv v w') by (apply setFragmentShader_Inv, HI).
  pose proof (inv_pre _ _ _ HI) as HP.
  destruct (pre_scene _ _ HP) as (s & Hs & Hn & _).
  assert (Hmain :
    (materials w' = materials w /\ next_id w' = next_id w /\
     closures w' = closures w) /\
    (exists s', scene (renderer w') = Some s' /\
                scene_name s' = scene_name s /\ children s' = children s) /\
    log w' = log w /\
    (camera (renderer w') = camera (renderer w) /\
     clock (renderer w') = clock (renderer w)) /\
    fragmentShader (app w') = fragmentShaderTemp (app w)).
  { subst w'. unfold onClickCompile.
    destruct (decide (fragmentShaderTemp (app w) = fragmentShader (app w)))
      as [He|Hne].
    - assert (Hw : setFragmentShader drv v (fragmentShaderTemp (app w)) w = w).
      { unfold setFragmentShader. rewrite He, String.eqb_refl. reflexivity. }
      rewrite Hw. repeat split; [|symmetry; exact He].
      exists s. auto.
    - destruct (setFragmentShader_run drv v _ w s HI Hs Hne) as (c & _ & ->).
      rewrite Hv. unfold committing. cbn.
      repeat split. eexists; repeat split. }
  destruct Hmain as (H1 & (s' & Hs' & H2) & H3 & H4 & H5).
  split; [exact H1|]. split; [eauto|]. split; [exact H3|]. split; [exact H4|].
  pose proof (inv_pre _ _ _ HI') as HP'.
  split; [destruct HP' as [_ _ _ [? ?] ? _]; auto|].
  split.
  - destruct (frame_run drv v w' HI') as (HI'' & _ & _ & _ & _ & (es & s'' & Hs'' & Hl) & _).
    rewrite Hs' in Hs''. injection Hs'' as <-.
    exists es, s. split; [exact Hs|]. split.
    + rewrite Hl, H3. destruct H2 as [_ ->]. reflexivity.
    + apply (inv_pre _ _ _ HI'').
  - split; [|exact H5].
    rewrite (inv_errors _ _ _ HI'), H5, Hv. reflexivity.
Qed.

Lemma evolve_cons e es c : evolve (e :: es) c = evolve es (closure_step e c).
Proof. reflexivity. Qed.

Section Pointer.
Variable drv : GL.Driver.
Variable v : Variant.

Lemma run_cons e es w :
  run drv v (e :: es) w = run drv v es (step drv v e w).
Proof. reflexivity. Qed.

Lemma step_closure e w h c :
  Inv drv v w ->
  closures w !! h = Some c ->
  closures (step drv v e w) !! h = Some (closure_step e c).
Proof.
  intros HI Hc. destruct e; cbn [step closure_step].
  - exact Hc.
  - exact Hc.
  - cbn. change (map ?f ?l) with (f <$> l).
    rewrite list_lookup_fmap, Hc. reflexivity.
  - cbn. change (map ?f ?l) with (f <$> l).
    rewrite list_lookup_fmap, Hc. reflexivity.
  - destruct (frame_run drv v w HI) as (_ & -> & _). exact Hc.
  - destruct (showEditors (app w)); exact Hc.
  - exact Hc.
  - destruct (showEditors (app w)); [|exact Hc].
    unfold onClickCompile.
    destruct (decide (fragmentShaderTemp (app w) = fragmentShader (app w)))
      as [He|Hne].
    + unfold setFragmentShader. rewrite He, String.eqb_refl. exact Hc.
    + destruct (pre_scene _ _ (inv_pre _ _ _ HI)) as (s & Hs & _).
      destruct (setFragmentShader_run drv v _ w s HI Hs Hne) as (g & _ & ->).
      destruct (diagnostic drv (fragmentShaderTemp (app w))); [exact Hc|].
      unfold compiled, committing. cbn.
      apply lookup_app_l_Some, Hc.
Qed.

Lemma run_closure es w h c :
  Inv drv v w ->
  closures w !! h = Some c ->
  closures (run drv v es w) !! h = Some (evolve es c).
Proof.
  revert w c. induction es as [|e es IH]; intros w c HI Hc; [exact Hc|].
  rewrite run_cons, evolve_cons.
  apply IH; [apply step_Inv, HI|apply step_closure; assumption].
Qed.

Lemma step_scene e w :
  Inv drv v w -> is_compile e = false ->
  scene (renderer (step drv v e w)) = scene (renderer w).
Proof.
  intros HI He. destruct e; try discriminate; cbn [step]; try reflexivity.
  - destruct (frame_run drv v w HI) as (_ & _ & -> & _). reflexivity.
  - destruct (showEditors (app w)); reflexivity.
Qed.

Lemma run_scene es w :
  Inv drv v w -> no_compile es = true ->
  scene (renderer (run drv v es w)) = scene (renderer w).
Proof.
  revert w. induction es as [|e es IH]; intros w HI Hn; [reflexivity|].
  cbn in Hn. apply andb_true_iff in Hn as [He Hn].
  apply negb_true_iff in He.
  rewrite run_cons, IH; [apply step_scene| apply step_Inv|]; assumption.
Qed.

Lemma run_active_closure es w c :
  Inv drv v w -> no_compile es = true ->
  active_closure w = Some c ->
  active_closure (run drv v es w) = Some (evolve es c).
Proof.
  intros HI Hn. unfold active_closure.
  rewrite (run_scene es w HI Hn).
  destruct (scene (renderer w)) as [s|]; [|discriminate].
  destruct (onDraw s) as [h|]; [|discriminate].
  apply run_closure, HI.
Qed.

(** The material of the closure whose hook is registered exists. *)
Lemma active_material w c :
  Inv drv v w -> active_closure w = Some c ->
  is_Some (materials w !! c_mat c).
Proof.
  intros [_ _ (s & Hs & Hh)]. unfold active_closure. rewrite Hs.
  destruct (diagnostic drv (fragmentShader (app w))).
  - rewrite Hh. discriminate.
  - destruct Hh as (c' & -> & Hl & Hm).
    rewrite <- last_lookup, Hl. intros [= <-]. exact Hm.
Qed.

Lemma frame_uniforms w c :
  Inv drv v w -> active_closure w = Some c ->
  active_uniforms (onAnimationFrame w) =
    Some (hook_uniforms
            (THREE.Clock_getElapsedTime (now w) (clock (renderer w))).1 c).
Proof.
  intros HI Hc.
  destruct (active_material w c HI Hc) as [m Hm].
  destruct (frame_run drv v w HI) as (_ & Hcl & Hsc & _ & _ & _ & Hmat).
  rewrite Hc in Hmat. destruct Hmat as [_ Hmat].
  unfold active_uniforms.
  assert (Ha : active_closure (onAnimationFrame w) = Some c).
  { unfold active_closure in *. rewrite Hsc, Hcl. exact Hc. }
  rewrite Ha, Hmat, lookup_alter_eq, Hm. reflexivity.
Qed.

End Pointer.

Lemma evolve_static es c :
  c_mat (evolve es c) = c_mat c /\ c_resolution (evolve es c) = c_resolution c.
Proof.
  revert c. induction es as [|e es IH]; intros c; [split; reflexivity|].
  rewrite evolve_cons. destruct (IH (closure_step e c)) as [-> ->].
  destruct e; split; reflexivity.
Qed.


Lemma sum_dx_cons held d ds :
  sum_dx held (d :: ds) =
    if held d.2 then (d.1.1 + sum_dx held ds)%Q else sum_dx held ds.
Proof.
  unfold sum_dx. cbn [filter list_filter].
  destruct (decide (held d.2 = true)) as [->|Hn]; [reflexivity|].
  destruct (held d.2); [contradiction|reflexivity].
Qed.

Lemma sum_dy_cons held d ds :
  sum_dy held (d :: ds) =
    if held d.2 then (d.1.2 + sum_dy held ds)%Q else sum_dy held ds.
Proof.
  unfold sum_dy. cbn [filter list_filter].
  destruct (decide (held d.2 = true)) as [->|Hn]; [reflexivity|].
  destruct (held d.2); [contradiction|reflexivity].
Qed.

Lemma evolve_drag es c :
  (THREE.x (mouseDrag (evolve es c)) ==
     THREE.x (mouseDrag c)
     + sum_dx primary_alone (move_deltas (mousePos c) es))%Q /\
  (THREE.y (mouseDrag (evolve es c)) ==
     THREE.y (mouseDrag c)
     + sum_dy primary_alone (move_deltas (mousePos c) es))%Q.
Proof.
  revert c. induction es as [|e es IH]; intros c.
  - change ((THREE.x (mouseDrag c) == THREE.x (mouseDrag c) + 0)%Q /\
            (THREE.y (mouseDrag c) == THREE.y (mouseDrag c) + 0)%Q).
    split; ring.
  - rewrite evolve_cons. destruct (IH (closure_step e c)) as [Hx Hy].
    rewrite Hx, Hy. clear IH Hx Hy.
    destruct e; cbn [closure_step move_deltas]; try (split; reflexivity).
    rewrite sum_dx_cons, sum_dy_cons.
    cbn [on_mousemove mousePos mouseDrag THREE.x THREE.y fst snd].
    unfold primary_alone.
    destruct (N.eqb buttons 1); cbn [THREE.x THREE.y]; split; ring.
Qed.

Section Fresh.
Variable drv : GL.Driver.
Variable v : Variant.

(** A compile action with a new and valid draft runs the effect to its end. *)
Lemma successful_compile w :
  Inv drv v w ->
  fragmentShaderTemp (app w) <> fragmentShader (app w) ->
  (verifyShaderProgram drv Sources.vertexShader
     (fragmentShaderTemp (app w)) w).1 = Ret tt ->
  exists c s,
    scene (renderer w) = Some s /\
    onClickCompile drv v w =
      compiled v c (committing (fragmentShaderTemp (app w)) s w).
Proof.
  intros HI Hne Hv.
  apply (verify_Ret drv v w _ HI) in Hv.
  destruct (pre_scene _ _ (inv_pre _ _ _ HI)) as (s & Hs & _).
  destruct (setFragmentShader_run drv v _ w s HI Hs Hne) as (c & _ & Hrun).
  rewrite Hv in Hrun. exists c, s. split; [exact Hs|exact Hrun].
Qed.

Lemma compiled_active_closure c value s w :
  active_closure (compiled v c (committing value s w)) =
    Some (fresh_closure w).
Proof.
  unfold compiled, committing, active_closure. cbn.
  apply list_lookup_middle. reflexivity.
Qed.

Lemma compiled_active_uniforms c value s w :
  active_uniforms (compiled v c (committing value s w)) =
    Some (THREE.uniforms
            (seeded_material
               (THREE.Clock_getElapsedTime (now w) (clock (renderer w))).1
               (committing value s w))).
Proof.
  unfold active_uniforms. rewrite compiled_active_closure.
  unfold compiled, committing. cbn. rewrite lookup_insert_eq. reflexivity.
Qed.

End Fresh.

Lemma compiled_active v c w s :
  scene (renderer w) = Some s ->
  active_closure (compiled v c w) = Some (fresh_closure w) /\
  active_uniforms (compiled v c w) =
    Some (THREE.uniforms
            (seeded_material
               (THREE.Clock_getElapsedTime (now w) (clock (renderer w))).1 w)) /\
  innerWidth (compiled v c w) = innerWidth w /\
  innerHeight (compiled v c w) = innerHeight w.
Proof.
  intros Hs.
  assert (Ha : active_closure (compiled v c w) = Some (fresh_closure w)).
  { unfold compiled, active_closure. rewrite Hs. cbn.
    apply list_lookup_middle. reflexivity. }
  split; [exact Ha|]. unfold active_uniforms. rewrite Ha.
  unfold compiled. rewrite Hs. cbn. rewrite lookup_insert_eq.
  repeat split.
Qed.

(** The first render, unfolded: the effect runs on the page that
    [switchScene] leaves, and once more after a cleanup in a development
    build. *)
Lemma main_run drv v development t wd ht :
  exists w2 s,
    Pre v w2 /\ scene (renderer w2) = Some s /\ onDraw s = None /\
    fragmentShader (app w2) = initFragmentShader v /\
    innerWidth w2 = wd /\ innerHeight w2 = ht /\
    main drv v development (page t wd ht) =
      if development
      then handle (effect drv v) (handle cleanup (handle (effect drv v) w2))
      else handle (effect drv v) w2.
Proof.
  unfold main, mount.
  set (w0 := handle enable (handle Renderer_new (page t wd ht))).
  set (w1 := match v with
             | NamedQuad => _
             | UnnamedQuad => _
             end).
  assert (exists w2, switchScene "quad" w1 = (Ret tt, w2) /\ Pre v w2 /\
            app w2 = app w1 /\
            (exists s, scene (renderer w2) = Some s /\ onDraw s = None) /\
            fragmentShader (app w2) = initFragmentShader v /\
            innerWidth w2 = wd /\ innerHeight w2 = ht)
    as (w2 & Hsw & HP & Ha & (s & Hs & Ho) & Hf & Hw & Hh).
  { subst w1 w0. unfold page.
    destruct v; exec; (eexists; split; [reflexivity|]);
      (split; [|split; [reflexivity|split; [eauto|repeat split]]]);
      (split; cbn; eauto using wf_empty, clock_ok_new). }
  exists w2, s. repeat (split; [assumption|]).
  assert (He : effect drv v w1 = effect drv v w2).
  { apply (effect_switch drv v w1 w2 Hsw); [|exact Ha].
    destruct (pre_scene _ _ HP) as (s' & Hs' & Hn & _).
    apply (switchScene_same _ _ _ Hs' Hn). }
  assert (Hh1 : handle (effect drv v) w1 = handle (effect drv v) w2)
    by (unfold handle; rewrite He; reflexivity).
  rewrite Hh1. reflexivity.
Qed.

(** When the effect has just run and the committed source validates, the
    page is the one a successful run of the effect leaves. *)
Lemma effect_has_run_compiled drv v w :
  effect_has_run drv v w ->
  (verifyShaderProgram drv Sources.vertexShader
     (fragmentShader (app w)) w).1 = Ret tt ->
  Inv drv v w /\
  exists c w1 s,
    w = compiled v c w1 /\ scene (renderer w1) = Some s /\
    innerWidth w1 = innerWidth w /\ innerHeight w1 = innerHeight w.
Proof.
  intros Hran Hv.
  assert (HI : Inv drv v w).
  { destruct Hran as [development t wd ht|w0 Hr Hne];
      [apply main_Inv|apply setFragmentShader_Inv, reachable_Inv, Hr]. }
  split; [exact HI|].
  apply (verify_Ret drv v w _ HI) in Hv.
  assert (Hfresh : forall w2 s,
            Pre v w2 -> scene (renderer w2) = Some s ->
            fragmentShader (app (handle (effect drv v) w2))
              = fragmentShader (app w2) /\
            (diagnostic drv (fragmentShader (app w2)) = None ->
             exists c, handle (effect drv v) w2 = compiled v c w2 /\
                       innerWidth (compiled v c w2) = innerWidth w2 /\
                       innerHeight (compiled v c w2) = innerHeight w2)).
  { intros w2 s HP Hs. unfold handle.
    destruct (diagnostic drv (fragmentShader (app w2))) as [msg|] eqn:Hd.
    - destruct (effect_failure drv v w2 msg HP Hd) as (c & -> & _).
      split; [reflexivity|discriminate].
    - destruct (effect_success drv v w2 HP Hd) as (c & -> & _).
      destruct (compiled_active v c w2 s Hs) as (_ & _ & Hw & Hh).
      split; [unfold compiled; rewrite Hs; reflexivity|].
      intros _. exists c. auto. }
  destruct Hran as [development t wd ht|w0 Hr Hne].
  - destruct (main_run drv v development t wd ht)
      as (w2 & s & HP & Hs & Ho & Hf & _ & _ & Hm).
    destruct development.
    + pose proof (effect_Inv drv v w2 s HP Hs Ho) as HI1.
      destruct (Hfresh w2 s HP Hs) as [Hf1 _].
      set (w3 := handle (effect drv v) w2) in *.
      destruct (pre_scene _ _ (inv_pre _ _ _ HI1)) as (s3 & Hs3 & _).
      assert (Hc : handle cleanup w3 =
                   set_renderer
                     (set_scene (Some (set_onDraw None s3)) (renderer w3)) w3).
      { unfold handle. rewrite (cleanup_run w3 s3 Hs3). reflexivity. }
      rewrite Hc in Hm.
      pose proof (cleanup_Pre v w3 s3 (inv_pre _ _ _ HI1) Hs3) as HP4.
      set (w4 := set_renderer _ w3) in *.
      destruct (Hfresh w4 (set_onDraw None s3) HP4 eq_refl) as [Hf4 Hok].
      rewrite Hm in Hv. rewrite Hf4 in Hv.
      destruct (Hok Hv) as (c & Hrun & Hw & Hh).
      exists c, w4, (set_onDraw None s3).
      rewrite Hm, Hrun. auto.
    + destruct (Hfresh w2 s HP Hs) as [Hf2 Hok].
      rewrite Hm in Hv. rewrite Hf2 in Hv.
      destruct (Hok Hv) as (c & Hrun & Hw & Hh).
      exists c, w2, s. rewrite Hm, Hrun. auto.
  - pose proof (reachable_Inv drv v w0 Hr) as HI0.
    destruct (pre_scene _ _ (inv_pre _ _ _ HI0)) as (s & Hs & _).
    unfold onClickCompile in *.
    destruct (setFragmentShader_run drv v _ w0 s HI0 Hs Hne) as (c & _ & Hrun).
    rewrite Hrun in Hv |- *.
    destruct (diagnostic drv (fragmentShaderTemp (app w0))) as [msg|] eqn:Hd.
    + cbn in Hv. rewrite Hd in Hv. discriminate.
    + exists c, (committing (fragmentShaderTemp (app w0)) s w0),
        (set_onDraw None s).
      split; [reflexivity|]. split; [reflexivity|].
      destruct (compiled_active v c
                  (committing (fragmentShaderTemp (app w0)) s w0)
                  (set_onDraw None s) eq_refl) as (_ & _ & Hw & Hh).
      split; symmetry; assumption.
Qed.

(** The closure and the uniforms that the effect has just made. *)
Lemma effect_has_run_fresh drv v w :
  effect_has_run drv v w ->
  (verifyShaderProgram drv Sources.vertexShader
     (fragmentShader (app w)) w).1 = Ret tt ->
  Inv drv v w /\
  exists c u,
    active_closure w = Some c /\ active_uniforms w = Some u /\
    c_resolution c = (innerWidth w, innerHeight w) /\
    mousePos c = THREE.mkVector2 0 0 /\ mouseDrag c = THREE.mkVector2 0 0 /\
    zoom c = 1%float /\
    THREE.drag u = THREE.mkVector2 0 0 /\ THREE.zoom u = 1%float.
Proof.
  intros Hran Hv.
  destruct (effect_has_run_compiled drv v w Hran Hv)
    as (HI & c & w1 & s & Hw & Hs & Hwd & Hht).
  split; [exact HI|].
  destruct (compiled_active v c w1 s Hs) as (Ha & Hu & _).
  exists (fresh_closure w1). eexists.
  rewrite Hw at 1 2. split; [exact Ha|]. split; [exact Hu|].
  rewrite <- Hwd, <- Hht. repeat split.
Qed.

(** C8 (amended). When the effect has just made a material, at the first
    render or at a compile action, the drag uniform is zero; after any
    events without a further compile action that leave the window the size
    it had, a frame gives the drag uniform the sum of the deltas of the moves
    made with [buttons = 1] (the primary button and no other), divided by the
    width and the height of the window. The delta of a move is taken from the
    position of the move before it, that of the first move from the origin;
    the other moves add nothing. *)
Theorem drag_uniform_is_normalised_sum_of_held_moves drv v w es :
  effect_has_run drv v w ->
  (verifyShaderProgram drv Sources.vertexShader
     (fragmentShader (app w)) w).1 = Ret tt ->
  no_compile es = true ->
  let w' := run drv v es w in
  (innerWidth w' == innerWidth w)%Q ->
  (innerHeight w' == innerHeight w)%Q ->
  (exists u, active_uniforms w = Some u /\
             THREE.drag u = THREE.mkVector2 0 0) /\
  exists u,
    active_uniforms (onAnimationFrame w') = Some u /\
    drag_is_normalised_sum primary_alone (THREE.mkVector2 0 0) w' es u.
Proof.
  intros Hran Hv Hn w' Hwd Hht.
  destruct (effect_has_run_fresh drv v w Hran Hv)
    as (HI & c & u & Ha & Hu & Hres & Hpos & Hdrag & _ & Hud & _).
  split; [exists u; split; assumption|].
  pose proof (run_active_closure drv v es w _ HI Hn Ha) as Ha'.
  pose proof (run_Inv drv v es w HI) as HI'.
  fold w' in Ha', HI'.
  rewrite (frame_uniforms drv v _ _ HI' Ha').
  eexists; split; [reflexivity|].
  destruct (evolve_static es c) as [_ Hres'].
  destruct (evolve_drag es c) as [Hx Hy].
  unfold drag_is_normalised_sum, hook_uniforms.
  cbn [THREE.drag THREE.x THREE.y].
  rewrite Hres', Hres, Hx, Hy, Hpos, Hdrag, Hwd, Hht.
  cbn [THREE.x THREE.y fst snd].
  unfold Qdiv. split; ring.
Qed.

Lemma drag_uniform_is_normalised_sum_of_held_moves_witness :
  let w := main accepting NamedQuad false (page 0 800 600) in
  let es := [MouseMove 10 20 1; MouseMove 30 50 1; AnimationFrame;
             MouseMove 45 70 0; MouseMove 50 80 3] in
  effect_has_run accepting NamedQuad w /\
  no_compile es = true /\
  exists u,
    active_uniforms (onAnimationFrame (run accepting NamedQuad es w)) = Some u /\
    (THREE.x (THREE.drag u) == 30 / 800)%Q /\
    (THREE.y (THREE.drag u) == 50 / 600)%Q.
Proof.
  intros w es.
  assert (Hran : effect_has_run accepting NamedQuad w)
    by exact (ran_at_first_render accepting NamedQuad false 0 800 600).
  split; [exact Hran|]. split; [reflexivity|].
  destruct (drag_uniform_is_normalised_sum_of_held_moves
              accepting NamedQuad w es Hran) as [_ (u & Hu & Hx & Hy)].
  - vm_compute. reflexivity.
  - reflexivity.
  - vm_compute. reflexivity.
  - vm_compute. reflexivity.
  - exists u. split; [exact Hu|]. split.
    + rewrite Hx. vm_compute. reflexivity.
    + rewrite Hy. vm_compute. reflexivity.
Defined.

(** C8 as stated fails, in three ways. The pointer is at (399, 299) when
    the material is compiled in a window of 800 by 600. A move made with the
    primary and the secondary button held ([buttons = 3]) is a move with the
    primary button held, and it adds nothing to the drag. A first move of one
    pixel made with the primary button adds the position it reaches, not its
    delta. And after the window has been resized to 1600 by 1200, the frame
    still divides the drag by 800 and 600. *)
Lemma drag_uniform_departs_from_the_sum_of_held_deltas :
  let w0 := run accepting NamedQuad
              [MouseMove 399 299 0; EditorChange "void main(){}"]
              (main accepting NamedQuad false (page 0 800 600)) in
  let w := onClickCompile accepting NamedQuad w0 in
  let pointer := THREE.mkVector2 399 299 in
  let frame es := onAnimationFrame (run accepting NamedQuad es w) in
  let two_buttons := [MouseMove 399 299 0; MouseMove 409 319 3] in
  let one_pixel := [MouseMove 400 300 1] in
  let resize := [MouseMove 399 299 0; MouseMove 1199 899 1;
                 WindowResize 1600 1200] in
  effect_has_run accepting NamedQuad w /\
  (primary_held 3 = true /\
   exists u,
     active_uniforms (frame two_buttons) = Some u /\
     (THREE.x (THREE.drag u) == 0)%Q /\ (THREE.y (THREE.drag u) == 0)%Q /\
     ~ drag_is_normalised_sum primary_held pointer (frame two_buttons)
         two_buttons u) /\
  (exists u,
     active_uniforms (frame one_pixel) = Some u /\
     (THREE.x (THREE.drag u) == 400 / 800)%Q /\
     (THREE.y (THREE.drag u) == 300 / 600)%Q /\
     ~ drag_is_normalised_sum primary_alone pointer (frame one_pixel)
         one_pixel u) /\
  (exists u,
     active_uniforms (frame resize) = Some u /\
     innerWidth (frame resize) = 1600%Q /\ innerHeight (frame resize) = 1200%Q /\
     (THREE.x (THREE.drag u) == 800 / 800)%Q /\
     (THREE.y (THREE.drag u) == 600 / 600)%Q /\
     ~ drag_is_normalised_sum primary_alone pointer (frame resize) resize u).
Proof.
  intros w0 w pointer frame two_buttons one_pixel resize.
  split.
  { apply ran_at_compile_action; [apply reachable_run|].
    intros H. vm_compute in H. discriminate. }
  subst frame two_buttons one_pixel resize pointer w w0.
  split; [split; [reflexivity|]|split].
  - eexists. split; [vm_compute; reflexivity|].
    split; [reflexivity|]. split; [reflexivity|].
    intros [Hx _]. vm_compute in Hx. discriminate.
  - eexists. split; [vm_compute; reflexivity|].
    split; [reflexivity|]. split; [reflexivity|].
    intros [Hx _]. vm_compute in Hx. discriminate.
  - eexists. split; [vm_compute; reflexivity|].
    split; [vm_compute; reflexivity|]. split; [vm_compute; reflexivity|].
    split; [reflexivity|]. split; [reflexivity|].
    intros [Hx _]. vm_compute in Hx. discriminate.
Qed.





(** ** The clock *)

Lemma only_gl_ret {A} (a : A) : only_gl (ret a).
Proof. intros w. exists (gl w). destruct w; reflexivity. Qed.

Lemma only_gl_throw {A} e : only_gl (@throw A e).
Proof. intros w. exists (gl w). destruct w; reflexivity. Qed.

Lemma only_gl_bind {A B} (c : M A) (k : A -> M B) :
  only_gl c -> (forall a, only_gl (k a)) -> only_gl (bind c k).
Proof.
  intros Hc Hk w. unfold bind.
  destruct (Hc w) as [g Hg].
  destruct (c w) as [[a|e] w1]; cbn [snd] in Hg; subst w1.
  - destruct (Hk a (set_gl g w)) as [g' Hg']. exists g'. exact Hg'.
  - exists g. reflexivity.
Qed.

Lemma only_gl_gl_call {A} (f : GL.Context -> A * GL.Context) :
  only_gl (gl_call f).
Proof.
  intros w. unfold gl_call. destruct (f (gl w)) as [a c]. exists c. reflexivity.
Qed.

Lemma only_gl_gl_do f : only_gl (gl_do f).
Proof. intros w. exists (f (gl w)). reflexivity. Qed.

Lemma only_gl_gl_get {A} (f : GL.Context -> A) : only_gl (gl_get f).
Proof. intros w. exists (gl w). destruct w; reflexivity. Qed.

Lemma only_gl_the_threeRenderer : only_gl the_threeRenderer.
Proof.
  intros w. exists (gl w). unfold the_threeRenderer.
  destruct (threeRenderer (renderer w)); destruct w; reflexivity.
Qed.

Lemma only_gl_if {A} (b : bool) (c1 c2 : M A) :
  only_gl c1 -> only_gl c2 -> only_gl (if b then c1 else c2).
Proof. destruct b; auto. Qed.

Create HintDb only_gl.

#[local] Hint Resolve only_gl_ret only_gl_throw only_gl_gl_call only_gl_gl_do
  only_gl_gl_get only_gl_the_threeRenderer : only_gl.

Lemma only_gl_createShader drv src type : only_gl (createShader drv src type).
Proof.
  unfold createShader.
  repeat (apply only_gl_bind; [auto with only_gl|intros ?]).
  apply only_gl_if; [|auto with only_gl].
  apply only_gl_bind; [auto with only_gl|intros ?]. auto with only_gl.
Qed.

(** [verifyShaderProgram] changes nothing but the GL context, whatever the
    page and whether it returns or raises. *)
Lemma only_gl_verifyShaderProgram drv vertex fragment :
  only_gl (verifyShaderProgram drv vertex fragment).
Proof.
  unfold verifyShaderProgram.
  repeat (apply only_gl_bind;
          [auto using only_gl_createShader with only_gl|intros ?]).
  apply only_gl_if; [|auto with only_gl].
  apply only_gl_bind; [auto with only_gl|intros ?]. auto with only_gl.
Qed.

Lemma switchScene_clock name x :
  clock (renderer (switchScene name x).2) = clock (renderer x).
Proof.
  destruct x as [nw iw ih af cls unc g nid mats lg r a].
  destruct r as [tr siw sih sc cam en clk].
  unfold switchScene. unfold bind at 1. unfold reads at 1.
  cbn [renderer scene threeRenderer].
  destruct sc as [s|]; [destruct (String.eqb (scene_name s) name)|];
    destruct tr; reflexivity.
Qed.

Lemma running_getDelta t c :
  clock_ok c -> THREE.running c = true ->
  let c' := (THREE.Clock_getDelta t c).2 in
  THREE.running c' = true /\ THREE.startTime c' = THREE.startTime c /\
  (THREE.elapsedTime c' == (t - THREE.startTime c) / 1000)%Q.
Proof.
  intros [Ha Hr] Hrun. unfold THREE.Clock_getDelta. rewrite Ha, Hrun.
  cbn [andb negb snd THREE.running THREE.startTime THREE.elapsedTime].
  split; [reflexivity|]. split; [reflexivity|].
  rewrite (Hr Hrun). field.
Qed.

(** C10 (amended). [switchScene] and [verifyShaderProgram] leave the clock of
    the render host as it is, on any page. On a reachable page whose clock
    is running, [getElapsedTime] returns the time since the clock started, a
    compile action leaves the clock running from the same start, and the
    time uniform of the material it makes is the time since that start. *)
Theorem clock_keeps_running_from_its_start
    drv v w x name vertex fragment :
  reachable drv v w ->
  THREE.running (clock (renderer w)) = true ->
  let started := THREE.startTime (clock (renderer w)) in
  let w' := onClickCompile drv v w in
  clock (renderer (switchScene name x).2) = clock (renderer x) /\
  clock (renderer (verifyShaderProgram drv vertex fragment x).2) =
    clock (renderer x) /\
  (exists t, (getElapsedTime w).1 = Ret t /\
             (t == (now w - started) / 1000)%Q) /\
  (THREE.running (clock (renderer w')) = true /\
   THREE.startTime (clock (renderer w')) = started) /\
  (fragmentShaderTemp (app w) <> fragmentShader (app w) ->
   (verifyShaderProgram drv Sources.vertexShader
      (fragmentShaderTemp (app w)) w).1 = Ret tt ->
   exists u, active_uniforms w' = Some u /\
             (THREE.time u == (now w - started) / 1000)%Q).
Proof.
  intros Hr Hrun started w'.
  pose proof (reachable_Inv drv v w Hr) as HI.
  pose proof (pre_clock _ _ (inv_pre _ _ _ HI)) as Hk.
  destruct (running_getDelta (now w) _ Hk Hrun) as (Hr1 & Hr2 & Hr3).
  split; [apply switchScene_clock|].
  split.
  { destruct (only_gl_verifyShaderProgram drv vertex fragment x) as [g ->].
    reflexivity. }
  split.
  { eexists. split; [reflexivity|]. exact Hr3. }
  assert (Hsucc :
    fragmentShaderTemp (app w) <> fragmentShader (app w) ->
    diagnostic drv (fragmentShaderTemp (app w)) = None ->
    clock (renderer w') = (THREE.Clock_getDelta (now w) (clock (renderer w))).2 /\
    exists u, active_uniforms w' = Some u /\
              (THREE.time u == (now w - started) / 1000)%Q).
  { intros Hne Hd.
    destruct (pre_scene _ _ (inv_pre _ _ _ HI)) as (s & Hs & _).
    destruct (setFragmentShader_run drv v _ w s HI Hs Hne) as (c & _ & Hrun').
    rewrite Hd in Hrun'. subst w'. unfold onClickCompile. rewrite Hrun'.
    split; [reflexivity|].
    rewrite compiled_active_uniforms. eexists; split; [reflexivity|].
    exact Hr3. }
  split.
  - destruct (decide (fragmentShaderTemp (app w) = fragmentShader (app w)))
      as [He|Hne].
    + assert (Hw : w' = w).
      { subst w'. unfold onClickCompile, setFragmentShader.
        rewrite He, String.eqb_refl. reflexivity. }
      rewrite Hw. split; [exact Hrun|reflexivity].
    + destruct (diagnostic drv (fragmentShaderTemp (app w))) as [msg|] eqn:Hd.
      * destruct (pre_scene _ _ (inv_pre _ _ _ HI)) as (s & Hs & _).
        destruct (setFragmentShader_run drv v _ w s HI Hs Hne) as (c & _ & Hrun').
        rewrite Hd in Hrun'. subst w'. unfold onClickCompile. rewrite Hrun'.
        split; [exact Hrun|reflexivity].
      * destruct (Hsucc Hne eq_refl) as [-> _]. split; assumption.
  - intros Hne Hv. apply (verify_Ret drv v w _ HI) in Hv.
    apply (Hsucc Hne Hv).
Qed.

Lemma clock_keeps_running_from_its_start_witness :
  let w := run accepting NamedQuad [Elapse 2000; EditorChange "void main(){}"]
             (main accepting NamedQuad false (page 500 800 600)) in
  reachable accepting NamedQuad w /\
  THREE.running (clock (renderer w)) = true /\
  exists u,
    active_uniforms (onClickCompile accepting NamedQuad w) = Some u /\
    (THREE.time u == 2)%Q.
Proof.
  intros w.
  assert (Hr : reachable accepting NamedQuad w) by apply reachable_run.
  split; [exact Hr|]. split; [reflexivity|].
  destruct (clock_keeps_running_from_its_start accepting NamedQuad w w "quad"
              "" "" Hr eq_refl) as (_ & _ & _ & _ & H).
  destruct H as (u & Hu & Ht).
  - vm_compute. discriminate.
  - vm_compute. reflexivity.
  - exists u. split; [exact Hu|]. rewrite Ht. vm_compute. reflexivity.
Defined.

(** C10 as stated fails: the clock does not count from the construction of
    the render host. Five seconds after [new Renderer()] the first
    [getElapsedTime] starts it and returns 0, and two seconds later the next
    one returns 2. *)
Lemma elapsed_time_is_not_counted_from_construction :
  let w := step accepting NamedQuad (Elapse 5000) constructed in
  let first := getElapsedTime w in
  let second := getElapsedTime (step accepting NamedQuad (Elapse 2000) first.2) in
  now constructed = 0%Q /\ now w = (0 + 5000)%Q /\
  first.1 = Ret 0%Q /\
  ~ (0 == (now w - now constructed) / 1000)%Q /\
  exists t, second.1 = Ret t /\ (t == 2)%Q.
Proof.
  intros w first second.
  split; [reflexivity|]. split; [reflexivity|]. split; [reflexivity|].
  split; [intros H; vm_compute in H; discriminate|].
  eexists. split; [reflexivity|]. vm_compute. reflexivity.
Qed.

(** C1 (fails on the variant that precompiles). Two successful compiles, the one of the
    first render and one compile action: the scene holds two quads, and no
    material was disposed and no quad removed. *)
Theorem unnamed_quads_pile_up :
  let w := run accepting UnnamedQuad [EditorChange "void main(){}"; ClickCompile]
             (main accepting UnnamedQuad false (page 0 800 600)) in
  errors (app w) = "" /\
  fragmentShader (app w) = "void main(){}" /\
  map THREE.id (drawables w) = [5%nat; 8%nat] /\
  log w = [SetSize 800 600; RenderListsDispose; SceneAdd 5; Precompile;
           SceneAdd 8; Precompile].
Proof. vm_compute. repeat split; reflexivity. Qed.

(** In that variant the lookup of the old quad finds the scene itself,
    which bears the name looked up, and removing a scene from its own
    children removes nothing. *)
Lemma unnamed_lookup_finds_the_scene :
  let w := main accepting UnnamedQuad false (page 0 800 600) in
  (scene_getObjectByName "quad" w).1 = Ret (Some THREE.This) /\
  (scene_remove THREE.This w).2 = w.
Proof. vm_compute. split; reflexivity. Qed.

(** X18. In the variant that looks the quad up under the name "quad", every
    compile action that succeeds keeps the quads that were there and adds
    one more; nothing is removed or disposed. *)
Lemma unnamed_quad_is_never_replaced drv w :
  reachable drv UnnamedQuad w ->
  fragmentShaderTemp (app w) <> fragmentShader (app w) ->
  (verifyShaderProgram drv Sources.vertexShader
     (fragmentShaderTemp (app w)) w).1 = Ret tt ->
  let w' := onClickCompile drv UnnamedQuad w in
  exists new,
    drawables w' = (drawables w ++ [new])%list /\
    log w' = (log w ++ [SceneAdd (THREE.id new); Precompile])%list.
Proof.
  intros Hr Hne Hv w'.
  pose proof (reachable_Inv drv UnnamedQuad w Hr) as HI.
  destruct (successful_compile drv UnnamedQuad w HI Hne Hv) as (c & s & Hs & Hw).
  subst w'. rewrite Hw.
  exists (new_quad UnnamedQuad w).
  unfold drawables, compiled, committing. rewrite Hs. cbn.
  rewrite filter_app. split; reflexivity.
Qed.

(** X17. In App.tsx, after a compile action that succeeds there is one quad, and the quad that was there has been removed and its
    material disposed before the new one is added. *)
Lemma named_quad_is_replaced drv w :
  reachable drv NamedQuad w ->
  fragmentShaderTemp (app w) <> fragmentShader (app w) ->
  (verifyShaderProgram drv Sources.vertexShader
     (fragmentShaderTemp (app w)) w).1 = Ret tt ->
  let w' := onClickCompile drv NamedQuad w in
  exists new,
    drawables w' = [new] /\
    ((drawables w = [] /\
      log w' = (log w ++ [SceneAdd (THREE.id new)])%list) \/
     (exists old g m,
        drawables w = [old] /\
        THREE.kind old = THREE.Mesh g (THREE.SingleMaterial m) /\
        log w' = (log w ++ [SceneRemove (THREE.id old); MaterialDispose m;
                            SceneAdd (THREE.id new)])%list)).
Proof.
  intros Hr Hne Hv w'.
  pose proof (reachable_Inv drv NamedQuad w Hr) as HI.
  destruct (successful_compile drv NamedQuad w HI Hne Hv) as (c & s & Hs & Hw).
  destruct (pre_scene _ _ (inv_pre _ _ _ HI)) as (s' & Hs' & _ & Hq).
  rewrite Hs in Hs'. injection Hs' as <-.
  subst w'. rewrite Hw.
  exists (new_quad NamedQuad w).
  unfold drawables, compiled, committing. rewrite Hs. cbn.
  split; [reflexivity|].
  destruct Hq as [-> | (i & g & m & ->)]; cbn.
  - left. split; reflexivity.
  - right. eexists _, g, m. repeat split.
Qed.

(** C6 (fails on the code). The window is resized after the material was
    compiled: at the next frame the render host resizes the drawing surface,
    and the draw hook gives the resolution uniform the size read when the
    effect ran. *)
Theorem resolution_uniform_is_stale_after_resize :
  let w := run accepting NamedQuad [WindowResize 1024 768; AnimationFrame]
             (main accepting NamedQuad false (page 0 800 600)) in
  (getResolution w).1 = Ret (1024%Q, 768%Q) /\
  size <$> threeRenderer (renderer w) = Some (1024%Q, 768%Q) /\
  THREE.resolution <$> active_uniforms w = Some (THREE.mkVector2 800 600).
Proof. vm_compute. repeat split; reflexivity. Qed.

(** X19. At every frame for which a draw hook is registered, the hook gives the
    uniforms the clock reading and the zoom, pointer position and drag of its
    closure; the resolution it gives, and divides by, is the one its
    closure captured, whatever the window is by then. *)
Lemma frame_refreshes_uniforms drv v w c :
  reachable drv v w -> active_closure w = Some c ->
  exists t u,
    (getElapsedTime w).1 = Ret t /\
    active_uniforms (onAnimationFrame w) = Some u /\
    THREE.time u = t /\ THREE.zoom u = zoom c /\
    THREE.resolution u =
      THREE.mkVector2 (c_resolution c).1 (c_resolution c).2 /\
    THREE.mouse u =
      THREE.mkVector2 (THREE.x (mousePos c) / (c_resolution c).1)
                      (THREE.y (mousePos c) / (c_resolution c).2) /\
    THREE.drag u =
      THREE.mkVector2 (THREE.x (mouseDrag c) / (c_resolution c).1)
                      (THREE.y (mouseDrag c) / (c_resolution c).2).
Proof.
  intros Hr Hc.
  pose proof (reachable_Inv drv v w Hr) as HI.
  eexists _, _. split; [reflexivity|].
  split; [apply (frame_uniforms drv v w c HI Hc)|].
  repeat split.
Qed.

(** C2 as stated fails: a compile action whose draft does not compile takes
    the draw hook of the scene away. *)
Lemma failed_compile_unregisters_the_draw_hook :
  let w := run rejecting_error_directive NamedQuad [EditorChange "#error"]
             (main rejecting_error_directive NamedQuad false (page 0 800 600)) in
  let w' := onClickCompile rejecting_error_directive NamedQuad w in
  onDraw <$> scene (renderer w) = Some (Some 0%nat) /\
  onDraw <$> scene (renderer w') = Some None /\
  fragmentShader (app w) = initFragmentShader NamedQuad /\
  fragmentShader (app w') = "#error" /\
  ~ failed_compile_changes_only_the_diagnostic
      rejecting_error_directive NamedQuad w.
Proof.
  intros w w'. split; [reflexivity|]. split; [vm_compute; reflexivity|].
  split; [reflexivity|]. split; [vm_compute; reflexivity|].
  intros H.
  destruct (H "ERROR: 0:1: '#error'") as [Hs _].
  - vm_compute. reflexivity.
  - vm_compute in Hs. discriminate.
Qed.

(** After it, the frames no longer refresh the uniforms: the clock reading
    of the material stays where it was. *)
Lemma uniforms_freeze_after_a_failed_compile :
  let w := run rejecting_error_directive NamedQuad
             [EditorChange "#error"; ClickCompile; Elapse 1000; AnimationFrame]
             (main rejecting_error_directive NamedQuad false (page 0 800 600)) in
  active_uniforms w = None /\
  (fun m => THREE.time (THREE.uniforms m)) <$> materials w !! 4%nat = Some 0%Q /\
  animationFrame w = true /\
  log w = [SetSize 800 600; RenderListsDispose; SceneAdd 5; Render "quad" [5%nat]].
Proof. vm_compute. repeat split; reflexivity. Qed.

Lemma failed_compile_keeps_the_drawable_witness :
  let w := run rejecting_error_directive NamedQuad [EditorChange "#error"]
             (main rejecting_error_directive NamedQuad false (page 0 800 600)) in
  let w' := onClickCompile rejecting_error_directive NamedQuad w in
  reachable rejecting_error_directive NamedQuad w /\
  (verifyShaderProgram rejecting_error_directive Sources.vertexShader
     (fragmentShaderTemp (app w)) w).1 = Throw "ERROR: 0:1: '#error'" /\
  materials w' = materials w /\ log w' = log w /\
  errors (app w') = "ERROR: 0:1: '#error'".
Proof.
  intros w w'.
  assert (Hr : reachable rejecting_error_directive NamedQuad w)
    by apply reachable_run.
  assert (Hv : (verifyShaderProgram rejecting_error_directive
                  Sources.vertexShader (fragmentShaderTemp (app w)) w).1
               = Throw "ERROR: 0:1: '#error'")
    by (vm_compute; reflexivity).
  split; [exact Hr|]. split; [exact Hv|].
  destruct (failed_compile_keeps_the_drawable rejecting_error_directive
              NamedQuad w _ Hr Hv) as ((Hm & _) & _ & Hl & _ & _ & _ & He & _).
  split; [exact Hm|]. split; [exact Hl|exact He].
Defined.

(** * Further properties *)

(** ** The validation pass *)

(** X1. Whatever the page and the driver, and whether it returns or raises,
    [verifyShaderProgram] changes nothing of the page but the GL context:
    scene, materials, clock, log and React state are as before. *)
Theorem verifyShaderProgram_touches_only_the_context drv vertex fragment w :
  exists g, (verifyShaderProgram drv vertex fragment w).2 = set_gl g w.
Proof. apply only_gl_verifyShaderProgram. Qed.

Lemma verifyShaderProgram_deletes_on_success_witness :
  threeRenderer (renderer constructed) =
    Some (mkWebGLRenderer (800%Q, 600%Q) "srgb") /\
  GL.wf (gl constructed) /\
  first_failure accepting Sources.vertexShader "void main(){}" = None /\
  GL.shaders
    (gl (verifyShaderProgram accepting Sources.vertexShader "void main(){}"
           constructed).2) = ∅ /\
  GL.next_name
    (gl (verifyShaderProgram accepting Sources.vertexShader "void main(){}"
           constructed).2) = 3%nat.
Proof.
  split; [reflexivity|]. split; [apply wf_empty|]. split; [reflexivity|].
  split; [|vm_compute; reflexivity].
  exact (proj1 (verifyShaderProgram_deletes_on_success accepting
                  Sources.vertexShader "void main(){}" constructed _
                  eq_refl wf_empty eq_refl)).
Defined.

Lemma verifyShaderProgram_leaves_objects_on_failure_witness :
  threeRenderer (renderer constructed) =
    Some (mkWebGLRenderer (800%Q, 600%Q) "srgb") /\
  GL.wf (gl constructed) /\
  first_failure silent Sources.vertexShader "void main(){}"
    = Some VertexCompile /\
  let w' := (verifyShaderProgram silent Sources.vertexShader "void main(){}"
               constructed).2 in
  is_Some (GL.shaders (gl w') !! 1%nat) /\ GL.shaders (gl w') !! 2%nat = None.
Proof.
  split; [reflexivity|]. split; [apply wf_empty|]. split; [reflexivity|].
  destruct (verifyShaderProgram_leaves_objects_on_failure silent
              Sources.vertexShader "void main(){}" constructed _ VertexCompile
              eq_refl wf_empty eq_refl) as (_ & _ & H1 & H2).
  split; [exact H1|]. apply H2. reflexivity.
Defined.

(** ** [switchScene] *)

(** X4. [switchScene] returns normally on every page, and a second call with
    the same name changes nothing. *)
Theorem switchScene_is_idempotent name w :
  exists w',
    switchScene name w = (Ret tt, w') /\
    switchScene name w' = (Ret tt, w').
Proof.
  destruct w as [nw iw ih af cls unc g nid mats lg r a].
  destruct r as [tr siw sih sc cam en clk].
  unfold switchScene at 1. unfold bind at 1. unfold reads at 1.
  cbn [renderer scene threeRenderer].
  destruct sc as [s|].
  - destruct (String.eqb (scene_name s) name) eqn:He.
    + eexists. split; [reflexivity|].
      apply (switchScene_same name _ s); [reflexivity|].
      apply String.eqb_eq, He.
    + destruct tr; (eexists; split; [reflexivity|]);
        apply (switchScene_same name _ (mkScene name [] None)); reflexivity.
  - destruct tr; (eexists; split; [reflexivity|]);
      apply (switchScene_same name _ (mkScene name [] None)); reflexivity.
Qed.

(** ** What holds on every reachable page *)

(** X5. The render loop never stops and no error escapes a handler: on every
    reachable page the host is enabled, an animation frame is pending, the
    list of uncaught errors is empty, and the next frame leaves it so. *)
Theorem render_loop_is_never_aborted drv v w :
  reachable drv v w ->
  (enabled (renderer w) = true /\ animationFrame w = true /\ uncaught w = []) /\
  (animationFrame (onAnimationFrame w) = true /\
   uncaught (onAnimationFrame w) = []).
Proof.
  intros Hr. pose proof (reachable_Inv drv v w Hr) as HI.
  destruct (inv_pre _ _ _ HI) as [_ _ _ [Ha He] Hu _].
  split; [auto|].
  destruct (frame_run drv v w HI) as (HI' & _).
  destruct (inv_pre _ _ _ HI') as [_ _ _ [Ha' _] Hu' _]. auto.
Qed.

Lemma render_loop_is_never_aborted_witness :
  let w := run silent UnnamedQuad [ClickCompile; AnimationFrame; Wheel 3]
             (main silent UnnamedQuad true (page 0 800 600)) in
  reachable silent UnnamedQuad w /\
  animationFrame w = true /\ uncaught w = [].
Proof.
  intros w.
  assert (Hr : reachable silent UnnamedQuad w) by apply reachable_run.
  split; [exact Hr|].
  destruct (render_loop_is_never_aborted silent UnnamedQuad w Hr)
    as ((_ & Ha & Hu) & _).
  split; assumption.
Defined.

(** X6. In App.tsx the scene never holds more than one quad, and the quad it
    holds is named ["quadX"], has a single material and remembers that
    material in its [userData]. *)
Theorem named_scene_holds_at_most_one_quad drv w :
  reachable drv NamedQuad w ->
  (length (drawables w) <= 1)%nat /\
  forall q, In q (drawables w) ->
    THREE.name q = "quadX" /\
    exists g m, THREE.kind q = THREE.Mesh g (THREE.SingleMaterial m) /\
                THREE.userData_material q = Some m.
Proof.
  intros Hr. pose proof (reachable_Inv drv NamedQuad w Hr) as HI.
  destruct (pre_scene _ _ (inv_pre _ _ _ HI)) as (s & Hs & _ & Hq).
  unfold drawables. rewrite Hs.
  destruct Hq as [-> | (i & g & m & ->)].
  - change (filter _ []) with (@nil THREE.Object3D).
    split; [cbn; lia|]. intros q [].
  - rewrite filter_cons_True by reflexivity.
    change (filter _ []) with (@nil THREE.Object3D).
    split; [cbn; lia|]. intros q [<- | []]. cbn. eauto.
Qed.

Lemma named_scene_holds_at_most_one_quad_witness :
  let w := run accepting NamedQuad
             [EditorChange "void main(){}"; ClickCompile; EditorChange "";
              ClickCompile]
             (main accepting NamedQuad true (page 0 800 600)) in
  reachable accepting NamedQuad w /\ (length (drawables w) <= 1)%nat.
Proof.
  intros w.
  assert (Hr : reachable accepting NamedQuad w) by apply reachable_run.
  split; [exact Hr|].
  exact (proj1 (named_scene_holds_at_most_one_quad accepting w Hr)).
Defined.

(** X7. The scene has a draw hook exactly when the validation of the
    committed source succeeds; then the displayed error is empty, and
    otherwise it is the message that the validation raises. *)
Theorem draw_hook_is_registered_iff_committed_source_is_valid drv v w :
  reachable drv v w ->
  let outcome := (verifyShaderProgram drv Sources.vertexShader
                    (fragmentShader (app w)) w).1 in
  (is_Some (active_closure w) <-> outcome = Ret tt) /\
  (outcome = Ret tt -> errors (app w) = "") /\
  (forall message, outcome = Throw message -> errors (app w) = message).
Proof.
  intros Hr outcome. pose proof (reachable_Inv drv v w Hr) as HI.
  subst outcome. rewrite (verify_outcome drv v w _ HI).
  destruct HI as [_ He (s & Hs & Hh)].
  rewrite He. unfold active_closure. rewrite Hs.
  destruct (diagnostic drv (fragmentShader (app w))) as [msg|].
  - rewrite Hh. split; [split; [intros [? ?]; discriminate|discriminate]|].
    split; [discriminate|]. intros m [= ->]. reflexivity.
  - destruct Hh as (c & -> & Hl & _). rewrite <- last_lookup, Hl.
    split; [split; eauto|]. split; [reflexivity|discriminate].
Qed.

Lemma draw_hook_is_registered_iff_committed_source_is_valid_witness :
  let w := run rejecting_error_directive NamedQuad
             [EditorChange "#error"; ClickCompile]
             (main rejecting_error_directive NamedQuad false (page 0 800 600)) in
  reachable rejecting_error_directive NamedQuad w /\
  active_closure w = None /\ errors (app w) = "ERROR: 0:1: '#error'".
Proof.
  intros w.
  assert (Hr : reachable rejecting_error_directive NamedQuad w)
    by apply reachable_run.
  split; [exact Hr|].
  destruct (draw_hook_is_registered_iff_committed_source_is_valid
              rejecting_error_directive NamedQuad w Hr) as (_ & _ & H).
  split; [vm_compute; reflexivity|].
  apply H. vm_compute. reflexivity.
Defined.

(** X8. The window listeners are never removed: a closure that an effect has
    made stays where it is, through any events and compile actions, and
    goes on following every wheel and pointer event. *)
Theorem listeners_are_never_removed drv v w h c es :
  reachable drv v w ->
  closures w !! h = Some c ->
  closures (run drv v es w) !! h = Some (evolve es c) /\
  (length (closures w) <= length (closures (run drv v es w)))%nat.
Proof.
  intros Hr Hc. pose proof (reachable_Inv drv v w Hr) as HI.
  split; [apply run_closure; assumption|].
  clear h c Hc Hr. revert w HI.
  induction es as [|e es IH]; intros w HI; [reflexivity|].
  rewrite run_cons.
  etransitivity; [|apply IH, step_Inv, HI].
  apply Nat.nlt_ge. intros Hlt.
  destruct (closures w) as [|c0 cs] eqn:Hcs using rev_ind; [cbn in Hlt; lia|].
  assert (Hl : closures w !! length cs = Some c0)
    by (rewrite Hcs; apply list_lookup_middle; reflexivity).
  apply (step_closure drv v e w _ _ HI) in Hl.
  apply lookup_lt_Some in Hl. rewrite length_app in Hlt. cbn in Hlt. lia.
Qed.

Lemma listeners_are_never_removed_witness :
  let w := run accepting NamedQuad [Wheel 100]
             (main accepting NamedQuad false (page 0 800 600)) in
  let es := [EditorChange "void main(){}"; ClickCompile; Wheel 100] in
  reachable accepting NamedQuad w /\
  exists c c',
    closures w !! 0%nat = Some c /\ zoom c = 0.9%float /\
    closures (run accepting NamedQuad es w) !! 0%nat = Some c' /\
    zoom c' = 0.8%float.
Proof.
  intros w es.
  assert (Hr : reachable accepting NamedQuad w) by apply reachable_run.
  split; [exact Hr|].
  assert (Hc : closures w !! 0%nat
               = Some (on_wheel 100
                         (mkClosure 4 (800%Q, 600%Q) (THREE.mkVector2 0 0)
                            (THREE.mkVector2 0 0) 1)))
    by (vm_compute; reflexivity).
  destruct (listeners_are_never_removed accepting NamedQuad w 0 _ es Hr Hc)
    as [H _].
  eexists _, _. split; [exact Hc|]. split; [vm_compute; reflexivity|].
  split; [exact H|]. vm_compute. reflexivity.
Defined.

(** ** The clock over a whole run *)

Lemma compile_keeps_clock_running drv v value w :
  Inv drv v w ->
  THREE.running (clock (renderer w)) = true ->
  THREE.running (clock (renderer (setFragmentShader drv v value w))) = true /\
  THREE.startTime (clock (renderer (setFragmentShader drv v value w))) =
    THREE.startTime (clock (renderer w)).
Proof.
  intros HI Hrun.
  destruct (decide (value = fragmentShader (app w))) as [He|Hne].
  - unfold setFragmentShader. rewrite He, String.eqb_refl. auto.
  - destruct (pre_scene _ _ (inv_pre _ _ _ HI)) as (s & Hs & _).
    destruct (setFragmentShader_run drv v value w s HI Hs Hne) as (c & _ & ->).
    destruct (diagnostic drv value); [auto|].
    pose proof (pre_clock _ _ (inv_pre _ _ _ HI)) as Hk.
    destruct (running_getDelta (now w) _ Hk Hrun) as (Hr1 & Hr2 & _).
    unfold compiled, committing. cbn. auto.
Qed.

Lemma step_keeps_clock_running drv v e w :
  Inv drv v w ->
  THREE.running (clock (renderer w)) = true ->
  THREE.running (clock (renderer (step drv v e w))) = true /\
  THREE.startTime (clock (renderer (step drv v e w))) =
    THREE.startTime (clock (renderer w)).
Proof.
  intros HI Hrun. destruct e; cbn [step]; auto.
  - destruct (frame_run drv v w HI) as (_ & _ & _ & _ & _ & _ & Hc).
    destruct (active_closure w).
    + destruct Hc as [-> _].
      pose proof (pre_clock _ _ (inv_pre _ _ _ HI)) as Hk.
      destruct (running_getDelta (now w) _ Hk Hrun) as (Hr1 & Hr2 & _). auto.
    + destruct Hc as [-> _]. auto.
  - destruct (showEditors (app w)); auto.
  - destruct (showEditors (app w)); [|auto].
    apply compile_keeps_clock_running; assumption.
Qed.

(** X9. Once the clock of the render host runs, no event restarts it: after
    any events, compile actions and frames included, it still runs from the
    same start, and [getElapsedTime] returns the time since that start. *)
Theorem no_event_restarts_the_clock drv v w es :
  reachable drv v w ->
  THREE.running (clock (renderer w)) = true ->
  let w' := run drv v es w in
  THREE.running (clock (renderer w')) = true /\
  THREE.startTime (clock (renderer w')) = THREE.startTime (clock (renderer w)) /\
  exists t, (getElapsedTime w').1 = Ret t /\
            (t == (now w' - THREE.startTime (clock (renderer w))) / 1000)%Q.
Proof.
  intros Hr Hrun w'. pose proof (reachable_Inv drv v w Hr) as HI.
  assert (H : THREE.running (clock (renderer w')) = true /\
              THREE.startTime (clock (renderer w')) =
                THREE.startTime (clock (renderer w))).
  { subst w'. clear Hr. revert w HI Hrun.
    induction es as [|e es IH]; intros w HI Hrun; [auto|].
    rewrite run_cons.
    destruct (step_keeps_clock_running drv v e w HI Hrun) as [H1 H2].
    destruct (IH _ (step_Inv drv v e w HI) H1) as [H3 H4].
    split; [exact H3|]. rewrite H4. exact H2. }
  destruct H as [H1 H2]. split; [exact H1|]. split; [exact H2|].
  assert (HI' : Inv drv v w') by (apply run_Inv, HI).
  pose proof (pre_clock _ _ (inv_pre _ _ _ HI')) as Hk.
  destruct (running_getDelta (now w') _ Hk H1) as (_ & _ & Hr3).
  eexists. split; [reflexivity|]. rewrite <- H2. exact Hr3.
Qed.

Lemma no_event_restarts_the_clock_witness :
  let w := main accepting NamedQuad true (page 250 800 600) in
  let es := [Elapse 1000; AnimationFrame; EditorChange "void main(){}";
             ClickCompile; Elapse 500; EditorChange "x"; ClickCompile] in
  let w0 := run accepting NamedQuad [] w in
  reachable accepting NamedQuad w0 /\
  THREE.running (clock (renderer w0)) = true /\
  exists t, (getElapsedTime (run accepting NamedQuad es w0)).1 = Ret t /\
            (t == 1.5)%Q.
Proof.
  intros w es w0.
  assert (Hr : reachable accepting NamedQuad w0) by apply reachable_run.
  split; [exact Hr|]. split; [reflexivity|].
  destruct (no_event_restarts_the_clock accepting NamedQuad w0 es Hr eq_refl)
    as (_ & _ & t & Ht & Heq).
  exists t. split; [exact Ht|]. rewrite Heq. vm_compute. reflexivity.
Defined.

(** ** Input events *)

(** X10. Wheel events, pointer moves, edits, the toggle, the passing of time
    and window resizes change no material, draw nothing and leave the render
    host and the GL context as they are: uniforms change at frames only. *)
Theorem input_events_leave_the_uniforms drv v es w :
  input_only es = true ->
  let w' := run drv v es w in
  materials w' = materials w /\ log w' = log w /\
  renderer w' = renderer w /\ gl w' = gl w /\
  fragmentShader (app w') = fragmentShader (app w) /\
  errors (app w') = errors (app w).
Proof.
  revert w. induction es as [|e es IH]; intros w Hi; cbv zeta;
    [cbn; auto 10|].
  cbn [input_only forallb] in Hi. apply andb_true_iff in Hi as [He Hi].
  apply andb_true_iff in He as [Hf Hc].
  fold (input_only es) in Hi.
  change (run drv v (e :: es) w) with (run drv v es (step drv v e w)).
  pose proof (IH (step drv v e w) Hi) as IH'. cbv zeta in IH'.
  destruct IH' as (-> & -> & -> & -> & -> & ->).
  destruct e; try discriminate; cbn [step];
    try destruct (showEditors (app w)); auto 10.
Qed.

Lemma input_events_leave_the_uniforms_witness :
  let w := main accepting NamedQuad false (page 0 800 600) in
  let es := [Wheel 100; MouseMove 10 10 1; WindowResize 300 200; Elapse 5;
             EditorChange "x"; ClickToggleEditors] in
  input_only es = true /\
  materials (run accepting NamedQuad es w) = materials w.
Proof.
  intros w es. split; [reflexivity|].
  exact (proj1 (input_events_leave_the_uniforms accepting NamedQuad es w
                  eq_refl)).
Defined.

(** ** The pointer *)

Lemma evolve_mousePos es c :
  mousePos (evolve es c) = last_position (mousePos c) es.
Proof.
  revert c. induction es as [|e es IH]; intros c; [reflexivity|].
  rewrite evolve_cons, IH. destruct e; reflexivity.
Qed.

Lemma evolve_drag_telescopes es c :
  all_held es = true ->
  (THREE.x (mouseDrag (evolve es c)) ==
     THREE.x (mouseDrag c)
     + (THREE.x (last_position (mousePos c) es) - THREE.x (mousePos c)))%Q /\
  (THREE.y (mouseDrag (evolve es c)) ==
     THREE.y (mouseDrag c)
     + (THREE.y (last_position (mousePos c) es) - THREE.y (mousePos c)))%Q.
Proof.
  revert c. induction es as [|e es IH]; intros c Ha.
  - change ((THREE.x (mouseDrag c) ==
               THREE.x (mouseDrag c)
               + (THREE.x (mousePos c) - THREE.x (mousePos c)))%Q /\
            (THREE.y (mouseDrag c) ==
               THREE.y (mouseDrag c)
               + (THREE.y (mousePos c) - THREE.y (mousePos c)))%Q).
    split; ring.
  - cbn [all_held forallb] in Ha. apply andb_true_iff in Ha as [He Ha].
    fold (all_held es) in Ha.
    rewrite evolve_cons. destruct (IH (closure_step e c) Ha) as [Hx Hy].
    rewrite Hx, Hy. clear IH Hx Hy.
    destruct e; cbn [closure_step last_position]; try (split; reflexivity).
    cbn [on_mousemove mousePos mouseDrag]. rewrite He.
    cbn [THREE.x THREE.y]. split; ring.
Qed.

(** X11. In the scene-graph variants the pointer position that a frame gives
    to the mouse uniform is that of the last pointer move since the material
    was compiled, whatever the buttons, divided by the size the window had
    then; without any move it is the origin. *)
Theorem mouse_uniform_is_the_last_pointer_position drv v w c es :
  reachable drv v w ->
  active_closure w = Some c ->
  no_compile es = true ->
  let p := last_position (mousePos c) es in
  exists u,
    active_uniforms (onAnimationFrame (run drv v es w)) = Some u /\
    THREE.mouse u =
      THREE.mkVector2 (THREE.x p / (c_resolution c).1)
                      (THREE.y p / (c_resolution c).2).
Proof.
  intros Hr Hc Hn p. pose proof (reachable_Inv drv v w Hr) as HI.
  pose proof (run_active_closure drv v es w c HI Hn Hc) as Hc'.
  pose proof (run_Inv drv v es w HI) as HI'.
  rewrite (frame_uniforms drv v _ _ HI' Hc').
  eexists. split; [reflexivity|].
  unfold hook_uniforms. cbn [THREE.mouse].
  destruct (evolve_static es c) as [_ ->].
  rewrite evolve_mousePos. reflexivity.
Qed.

Lemma mouse_uniform_is_the_last_pointer_position_witness :
  let w := run accepting NamedQuad [MouseMove 5 5 0]
             (main accepting NamedQuad false (page 0 800 600)) in
  let es := [MouseMove 10 20 1; Wheel 7; MouseMove 400 150 2] in
  reachable accepting NamedQuad w /\
  no_compile es = true /\
  exists u,
    active_uniforms (onAnimationFrame (run accepting NamedQuad es w)) = Some u /\
    THREE.mouse u = THREE.mkVector2 (400 / 800) (150 / 600).
Proof.
  intros w es.
  assert (Hr : reachable accepting NamedQuad w) by apply reachable_run.
  split; [exact Hr|]. split; [reflexivity|].
  assert (Hc : active_closure w
               = Some (mkClosure 4 (800%Q, 600%Q) (THREE.mkVector2 5 5)
                         (THREE.mkVector2 0 0) 1))
    by (vm_compute; reflexivity).
  destruct (mouse_uniform_is_the_last_pointer_position accepting NamedQuad w _
              es Hr Hc eq_refl) as (u & Hu & Hm).
  exists u. split; [exact Hu|exact Hm].
Defined.

(** X12. While every move is made with [buttons = 1], the drag of a closure
    grows by the distance from where the pointer was to where it is: the
    deltas telescope, so the path taken does not matter. This holds through
    compile actions too, for the closure of an earlier compile. *)
Theorem drag_of_held_moves_is_the_displacement drv v w h c es :
  reachable drv v w ->
  closures w !! h = Some c ->
  all_held es = true ->
  exists c',
    closures (run drv v es w) !! h = Some c' /\
    mousePos c' = last_position (mousePos c) es /\
    (THREE.x (mouseDrag c') ==
       THREE.x (mouseDrag c) + (THREE.x (mousePos c') - THREE.x (mousePos c)))%Q /\
    (THREE.y (mouseDrag c') ==
       THREE.y (mouseDrag c) + (THREE.y (mousePos c') - THREE.y (mousePos c)))%Q.
Proof.
  intros Hr Hc Ha. pose proof (reachable_Inv drv v w Hr) as HI.
  exists (evolve es c).
  split; [apply run_closure; assumption|].
  split; [apply evolve_mousePos|].
  rewrite evolve_mousePos. apply evolve_drag_telescopes, Ha.
Qed.

Lemma drag_of_held_moves_is_the_displacement_witness :
  let w := run accepting NamedQuad [MouseMove 5 5 0]
             (main accepting NamedQuad false (page 0 800 600)) in
  let es := [MouseMove 10 20 1; Wheel 7; MouseMove 400 150 1;
             MouseMove 30 40 1] in
  reachable accepting NamedQuad w /\
  all_held es = true /\
  exists c',
    closures (run accepting NamedQuad es w) !! 0%nat = Some c' /\
    (THREE.x (mouseDrag c') == 25)%Q /\ (THREE.y (mouseDrag c') == 35)%Q.
Proof.
  intros w es.
  assert (Hr : reachable accepting NamedQuad w) by apply reachable_run.
  split; [exact Hr|]. split; [reflexivity|].
  assert (Hc : closures w !! 0%nat
               = Some (mkClosure 4 (800%Q, 600%Q) (THREE.mkVector2 5 5)
                         (THREE.mkVector2 0 0) 1))
    by (vm_compute; reflexivity).
  destruct (drag_of_held_moves_is_the_displacement accepting NamedQuad w 0 _
              es Hr Hc eq_refl) as (c' & Hc' & Hp & Hx & Hy).
  exists c'. split; [exact Hc'|].
  rewrite Hx, Hy, Hp. split; vm_compute; reflexivity.
Defined.

(** ** The feedback-buffer variant *)



(** The drag itself has no closed form in the positions: each division,
    difference and sum is rounded, so that three held moves across a renderer
    1366 wide leave a drag that differs from the displacement of the mouse
    uniform in the last places. *)
Lemma feedback_moves_are_rounded_one_by_one :
  let size := Feedback.mkVector2 1366 768 in
  let ms := [(size, 275, 100, 1%N); (size, 1165, 100, 1%N);
             (size, 129, 100, 1%N)]%float in
  let u := Feedback_moves ms (Feedback.init 0 size) in
  Feedback.x (Feedback.mouse u) = 0.09443631039531479%float /\
  Feedback.x (Feedback.drag u) = 0.09443631039531475%float.
Proof. vm_compute. split; reflexivity. Qed.

(** ** The export *)

Lemma compile_action_commits_the_draft drv v w :
  Inv drv v w ->
  fragmentShader (app (onClickCompile drv v w)) = fragmentShaderTemp (app w).
Proof.
  intros HI. unfold onClickCompile.
  destruct (decide (fragmentShaderTemp (app w) = fragmentShader (app w)))
    as [He|Hne].
  - unfold setFragmentShader. rewrite He, String.eqb_refl. reflexivity.
  - destruct (pre_scene _ _ (inv_pre _ _ _ HI)) as (s & Hs & _).
    destruct (setFragmentShader_run drv v _ w s HI Hs Hne) as (c & _ & ->).
    destruct (diagnostic drv (fragmentShaderTemp (app w))); reflexivity.
Qed.

(** X14. Save As exports the committed source, not the text of the editor: an
    edit does not change the exported file, and after a compile action the
    file holds the draft of that moment, whether it was valid or not. The
    export leaves the page as it is. *)
Theorem export_is_the_committed_source drv v w iso value :
  reachable drv v w ->
  blob_parts (saveAs iso (step drv v (EditorChange value) w)).1
    = blob_parts (saveAs iso w).1 /\
  blob_parts (saveAs iso (onClickCompile drv v w)).1
    = [fragmentShaderTemp (app w)] /\
  (saveAs iso w).2 = w.
Proof.
  intros Hr. pose proof (reachable_Inv drv v w Hr) as HI.
  split; [|split; [|reflexivity]].
  - cbn [step]. destruct (showEditors (app w)); reflexivity.
  - unfold saveAs. cbn [fst blob_parts].
    rewrite (compile_action_commits_the_draft drv v w HI). reflexivity.
Qed.

Lemma export_is_the_committed_source_witness :
  let w := run silent NamedQuad [EditorChange "oops"]
             (main silent NamedQuad false (page 0 800 600)) in
  reachable silent NamedQuad w /\
  blob_parts (saveAs "2024-01-01T00:00:00.000Z"
                (onClickCompile silent NamedQuad w)).1 = ["oops"] /\
  download (saveAs "2024-01-01T00:00:00.000Z" w).1
    = "fragment-2024-01-01T00:00:00.000Z.glsl".
Proof.
  intros w.
  assert (Hr : reachable silent NamedQuad w) by apply reachable_run.
  split; [exact Hr|]. split; [|reflexivity].
  exact (proj1 (proj2 (export_is_the_committed_source silent NamedQuad w
                         "2024-01-01T00:00:00.000Z" "" Hr))).
Defined.

(** ** Resizing and stopping the render loop *)

Lemma after_frame_run w t s :
  threeRenderer (renderer w) = Some t -> scene (renderer w) = Some s ->
  let w' := after_frame w in
  let frame := Render (scene_name s) (map THREE.id (children s)) in
  innerWidth w' = innerWidth w /\ innerHeight w' = innerHeight w /\
  scene (renderer w') = scene (renderer w) /\
  enabled (renderer w') = enabled (renderer w) /\
  animationFrame w' = enabled (renderer w) /\
  closures w' = closures w /\ gl w' = gl w /\ app w' = app w /\
  Qeq_bool (setInnerWidth (renderer w')) (innerWidth w) = true /\
  Qeq_bool (setInnerHeight (renderer w')) (innerHeight w) = true /\
  if negb (Qeq_bool (setInnerWidth (renderer w)) (innerWidth w))
     || negb (Qeq_bool (setInnerHeight (renderer w)) (innerHeight w))
  then
    log w' = (log w ++ [SetSize (innerWidth w) (innerHeight w); frame])%list /\
    threeRenderer (renderer w')
      = Some (mkWebGLRenderer (innerWidth w, innerHeight w)
                (outputColorSpace t)) /\
    camera (renderer w')
      = Some (THREE.mkOrthographicCamera (next_id w) (-1) 1 1 (-1) 0.1 10)
  else
    log w' = (log w ++ [frame])%list /\
    threeRenderer (renderer w') = threeRenderer (renderer w) /\
    camera (renderer w') = camera (renderer w) /\
    next_id w' = next_id w.
Proof.
  intros Ht Hs.
  destruct w as [nw iw ih af cls unc g nid mats lg r a].
  destruct r as [tr' siw sih sc cam en clk].
  cbn in Ht, Hs. subst tr' sc.
  unfold after_frame, hooked, drawn, resized, active_closure.
  cbn [renderer innerWidth innerHeight setInnerWidth setInnerHeight
       threeRenderer].
  destruct (Qeq_bool siw iw) eqn:E1, (Qeq_bool sih ih) eqn:E2;
    cbn [negb orb]; cbn; destruct s as [sn cs [h|]]; cbn;
    try destruct (cls !! h); cbn;
    rewrite ?Qeq_bool_refl, ?E1, ?E2, <- ?app_assoc; cbn;
    repeat split; reflexivity.
Qed.

(** X15. A change of the window is handled once: the frame after it finds the
    recorded size equal to the window again; when the size differed, that
    frame resizes the drawing surface to the window and makes a new camera
    before it draws; and the frame after that one only draws, with the same
    surface and camera. *)
Theorem window_change_is_handled_by_one_frame drv v w wd ht :
  reachable drv v w ->
  let w0 := step drv v (WindowResize wd ht) w in
  let w1 := onAnimationFrame w0 in
  let w2 := onAnimationFrame w1 in
  exists s frame,
    scene (renderer w) = Some s /\
    frame = Render "quad" (map THREE.id (children s)) /\
    Qeq_bool (setInnerWidth (renderer w1)) wd = true /\
    Qeq_bool (setInnerHeight (renderer w1)) ht = true /\
    (negb (Qeq_bool (setInnerWidth (renderer w)) wd)
     || negb (Qeq_bool (setInnerHeight (renderer w)) ht) = true ->
     log w1 = (log w ++ [SetSize wd ht; frame])%list /\
     size <$> threeRenderer (renderer w1) = Some (wd, ht) /\
     THREE.camera_id <$> camera (renderer w1) = Some (next_id w)) /\
    log w2 = (log w1 ++ [frame])%list /\
    threeRenderer (renderer w2) = threeRenderer (renderer w1) /\
    camera (renderer w2) = camera (renderer w1).
Proof.
  intros Hr w0 w1 w2. pose proof (reachable_Inv drv v w Hr) as HI.
  assert (HI0 : Inv drv v w0) by apply (step_Inv drv v _ w HI).
  destruct (frame_run drv v w0 HI0) as (HI1 & _).
  fold w1 in HI1.
  pose proof (inv_pre _ _ _ HI0) as HP0.
  pose proof (inv_pre _ _ _ HI1) as HP1.
  destruct (pre_three _ _ HP0) as [t0 Ht0].
  destruct (pre_scene _ _ HP0) as (s & Hs0 & Hn & _).
  destruct (pre_three _ _ HP1) as [t1 Ht1].
  destruct (pre_scene _ _ HP1) as (s1 & Hs1 & _).
  exists s, (Render "quad" (map THREE.id (children s))).
  split; [exact Hs0|]. split; [reflexivity|].
  pose proof (after_frame_run (set_animationFrame false w0) t0 s Ht0 Hs0) as F1.
  cbv zeta in F1. rewrite <- (onAnimationFrame_run v w0 HP0) in F1.
  fold w1 in F1. rewrite Hn in F1.
  change (innerWidth (set_animationFrame false w0)) with wd in F1.
  change (innerHeight (set_animationFrame false w0)) with ht in F1.
  change (renderer (set_animationFrame false w0)) with (renderer w) in F1.
  change (log (set_animationFrame false w0)) with (log w) in F1.
  change (next_id (set_animationFrame false w0)) with (next_id w) in F1.
  destruct F1 as (Hw & Hh & Hsc & _ & _ & _ & _ & _ & Q1 & Q2 & F1).
  split; [exact Q1|]. split; [exact Q2|].
  split.
  { intros Hc. rewrite Hc in F1. destruct F1 as (-> & -> & ->).
    repeat split. }
  assert (Hs1' : scene (renderer w1) = Some s).
  { rewrite Hsc. exact Hs0. }
  pose proof (after_frame_run (set_animationFrame false w1) t1 s Ht1 Hs1') as F2.
  cbv zeta in F2. rewrite <- (onAnimationFrame_run v w1 HP1) in F2.
  fold w2 in F2. rewrite Hn in F2.
  change (innerWidth (set_animationFrame false w1)) with (innerWidth w1) in F2.
  change (innerHeight (set_animationFrame false w1)) with (innerHeight w1) in F2.
  change (renderer (set_animationFrame false w1)) with (renderer w1) in F2.
  change (log (set_animationFrame false w1)) with (log w1) in F2.
  rewrite Hw, Hh, Q1, Q2 in F2.
  destruct F2 as (_ & _ & _ & _ & _ & _ & _ & _ & _ & _ & F2).
  cbn [negb orb] in F2. destruct F2 as (-> & -> & -> & _).
  repeat split.
Qed.

Lemma window_change_is_handled_by_one_frame_witness :
  let w := run accepting NamedQuad [AnimationFrame]
             (main accepting NamedQuad false (page 0 800 600)) in
  let w1 := onAnimationFrame
              (step accepting NamedQuad (WindowResize 1024 768) w) in
  reachable accepting NamedQuad w /\
  log w1 = (log w ++ [SetSize 1024 768; Render "quad" [5%nat]])%list /\
  log (onAnimationFrame w1) = (log w1 ++ [Render "quad" [5%nat]])%list.
Proof.
  intros w w1.
  assert (Hr : reachable accepting NamedQuad w) by apply reachable_run.
  split; [exact Hr|].
  destruct (window_change_is_handled_by_one_frame accepting NamedQuad w
              1024 768 Hr)
    as (s & frame & Hs & Hf & _ & _ & H1 & H2 & _).
  vm_compute in Hs. injection Hs as <-. cbn in Hf. subst frame.
  split; [exact (proj1 (H1 eq_refl))|exact H2].
Defined.

(** X16. [disable] lets the frame that was already requested run, which draws
    the scene once more (after a resize, when the window has changed) and
    requests no other frame; nothing is disposed or removed, the scene, the
    closures and the GL context stay, and [enable] requests a frame
    again. *)
Theorem disable_lets_the_requested_frame_run drv v w :
  reachable drv v w ->
  let w1 := handle disable w in
  let w2 := onAnimationFrame w1 in
  let w3 := handle enable w2 in
  exists s es,
    scene (renderer w) = Some s /\
    log w2 = (log w ++ es ++ [Render "quad" (map THREE.id (children s))])%list /\
    (es = [] \/ es = [SetSize (innerWidth w) (innerHeight w)]) /\
    animationFrame w2 = false /\ onAnimationFrame w2 = w2 /\
    scene (renderer w2) = scene (renderer w) /\
    closures w2 = closures w /\ gl w2 = gl w /\
    animationFrame w3 = true /\ enabled (renderer w3) = true.
Proof.
  intros Hr w1 w2 w3. pose proof (reachable_Inv drv v w Hr) as HI.
  pose proof (inv_pre _ _ _ HI) as HP.
  destruct (pre_three _ _ HP) as [t Ht].
  destruct (pre_scene _ _ HP) as (s & Hs & Hn & _).
  destruct (pre_loop _ _ HP) as [Hl _].
  assert (E1 : w1 = set_renderer (set_enabled false (renderer w)) w)
    by reflexivity.
  assert (E2 : w2 = after_frame (set_animationFrame false w1)).
  { unfold w2, onAnimationFrame, handle.
    replace (animationFrame w1) with true by (rewrite E1; symmetry; exact Hl).
    rewrite (renderLoop_run _ _ t s); [reflexivity|
      rewrite E1; exact Ht | rewrite E1; exact Hs | reflexivity]. }
  assert (Ht1 : threeRenderer (renderer (set_animationFrame false w1)) = Some t)
    by (rewrite E1; exact Ht).
  assert (Hs1 : scene (renderer (set_animationFrame false w1)) = Some s)
    by (rewrite E1; exact Hs).
  pose proof (after_frame_run _ t s Ht1 Hs1) as F.
  cbv zeta in F. rewrite <- E2 in F. rewrite Hn in F.
  change (innerWidth (set_animationFrame false w1)) with (innerWidth w) in F.
  change (innerHeight (set_animationFrame false w1)) with (innerHeight w) in F.
  change (log (set_animationFrame false w1)) with (log w) in F.
  change (closures (set_animationFrame false w1)) with (closures w) in F.
  change (gl (set_animationFrame false w1)) with (gl w) in F.
  change (scene (renderer (set_animationFrame false w1)))
    with (scene (renderer w)) in F.
  change (enabled (renderer (set_animationFrame false w1))) with false in F.
  destruct F as (_ & _ & Hsc & _ & Haf & Hcl & Hgl & _ & _ & _ & F).
  assert (Hlog : exists es,
            log w2 = (log w ++ es
                      ++ [Render "quad" (map THREE.id (children s))])%list /\
            (es = [] \/ es = [SetSize (innerWidth w) (innerHeight w)])).
  { destruct (negb _ || negb _) in F; destruct F as (-> & _).
    - exists [SetSize (innerWidth w) (innerHeight w)]. split; [reflexivity|auto].
    - exists []. split; [reflexivity|auto]. }
  destruct Hlog as (es & Hlog & Hes).
  exists s, es. split; [exact Hs|]. split; [exact Hlog|]. split; [exact Hes|].
  split; [exact Haf|].
  split; [unfold onAnimationFrame; rewrite Haf; reflexivity|].
  split; [exact Hsc|]. split; [exact Hcl|]. split; [exact Hgl|].
  split; reflexivity.
Qed.

Lemma disable_lets_the_requested_frame_run_witness :
  let w := run accepting NamedQuad [WindowResize 640 480]
             (main accepting NamedQuad false (page 0 800 600)) in
  let w2 := onAnimationFrame (handle disable w) in
  reachable accepting NamedQuad w /\
  log w2 = (log w ++ [SetSize 640 480; Render "quad" [5%nat]])%list /\
  run accepting NamedQuad [AnimationFrame; AnimationFrame] w2 = w2.
Proof.
  intros w w2.
  assert (Hr : reachable accepting NamedQuad w) by apply reachable_run.
  split; [exact Hr|].
  destruct (disable_lets_the_requested_frame_run accepting NamedQuad w Hr)
    as (s & es & Hs & Hlog & _ & _ & Hstop & _).
  split; [vm_compute; reflexivity|].
  change (run accepting NamedQuad [AnimationFrame; AnimationFrame] w2)
    with (onAnimationFrame (onAnimationFrame w2)).
  fold w2 in Hstop. rewrite !Hstop. reflexivity.
Defined.

(** ** Examples of the replacement of the quad and of a frame *)

Lemma named_quad_is_replaced_witness :
  let w := run accepting NamedQuad [EditorChange "void main(){}"]
             (main accepting NamedQuad false (page 0 800 600)) in
  let w' := onClickCompile accepting NamedQuad w in
  reachable accepting NamedQuad w /\
  fragmentShaderTemp (app w) <> fragmentShader (app w) /\
  exists new, drawables w' = [new].
Proof.
  intros w w'.
  assert (Hr : reachable accepting NamedQuad w) by apply reachable_run.
  assert (Hne : fragmentShaderTemp (app w) <> fragmentShader (app w))
    by (intros H; vm_compute in H; discriminate).
  split; [exact Hr|]. split; [exact Hne|].
  destruct (named_quad_is_replaced accepting w Hr Hne) as (new & Hd & _).
  - vm_compute. reflexivity.
  - exists new. exact Hd.
Defined.

Lemma unnamed_quad_is_never_replaced_witness :
  let w := run accepting UnnamedQuad [EditorChange "void main(){}"]
             (main accepting UnnamedQuad false (page 0 800 600)) in
  let w' := onClickCompile accepting UnnamedQuad w in
  reachable accepting UnnamedQuad w /\
  fragmentShaderTemp (app w) <> fragmentShader (app w) /\
  exists new, drawables w' = (drawables w ++ [new])%list.
Proof.
  intros w w'.
  assert (Hr : reachable accepting UnnamedQuad w) by apply reachable_run.
  assert (Hne : fragmentShaderTemp (app w) <> fragmentShader (app w))
    by (intros H; vm_compute in H; discriminate).
  split; [exact Hr|]. split; [exact Hne|].
  destruct (unnamed_quad_is_never_replaced accepting w Hr Hne) as (new & Hd & _).
  - vm_compute. reflexivity.
  - exists new. exact Hd.
Defined.

Lemma frame_refreshes_uniforms_witness :
  let w := run accepting NamedQuad [Elapse 1500; Wheel 100]
             (main accepting NamedQuad false (page 0 800 600)) in
  reachable accepting NamedQuad w /\
  exists u, active_uniforms (onAnimationFrame w) = Some u /\
            (THREE.time u == 1.5)%Q /\ THREE.zoom u = 0.9%float.
Proof.
  intros w.
  assert (Hr : reachable accepting NamedQuad w) by apply reachable_run.
  split; [exact Hr|].
  assert (Hc : exists c, active_closure w = Some c /\ zoom c = 0.9%float).
  { eexists. split; [vm_compute; reflexivity|]. vm_compute. reflexivity. }
  destruct Hc as (c & Hc & Hz).
  destruct (frame_refreshes_uniforms accepting NamedQuad w c Hr Hc)
    as (t & u & Ht & Hu & Htime & Hzoom & _).
  exists u. split; [exact Hu|].
  rewrite Htime, Hzoom. split; [|exact Hz].
  vm_compute in Ht. injection Ht as <-. vm_compute. reflexivity.
Defined.
